(** * AMM pool indexer: swap reconstruction, cursor and sink

    A shallow embedding of the WebSocket indexer ([src/indexer.ts], the
    version with the SQLite cache), of [src/utils/decodeSwap.ts] and of
    [src/utils/common.ts], together with the properties of the event
    reconciliation pipeline.

    Conventions of the embedding.
    - A [bigint] is a [Z].
    - A JavaScript [number] that holds an amount or a price is a [number]
      below: an exact rational or one of the three IEEE special values.
      Rounding of doubles and the sign of zero are not modelled.
    - A [PublicKey] is its canonical base58 text; [equals] is [String.eqb].
    - [Set<string>] iterates in insertion order, so [seen] is a list
      without repetition, oldest first.
    - A rejected promise (an exception thrown inside [handleTx]) keeps
      the mutations done so far: see [outcome]. *)

From Stdlib Require Import List ZArith QArith Bool String Ascii.
From Stdlib Require Import Strings.Byte.
From Stdlib Require Import Lia Permutation.
From Stdlib Require Import DecimalString DecimalNat FinFun.
Import ListNotations.
Local Open Scope Z_scope.

Set Implicit Arguments.

(** ** src/utils/decodeSwap.ts *)

Module Decoder.

Record DecodedSwap := mkDecodedSwap {
  amountIn : Z;
  minAmountOut : Z
}.

(** [buf[i]] as a number in 0..255. *)
Definition byte_val (b : byte) : Z := Z.of_N (Byte.to_N b).

Definition byteAt (buf : list byte) (i : nat) : option Z :=
  option_map byte_val (nth_error buf i).

(** [Buffer.prototype.readBigUInt64LE]: two 32-bit halves assembled from
    the bytes, the high half shifted by 32; a [RangeError] ([None]) when
    the first or the last byte is outside the buffer. *)
Definition readBigUInt64LE (buf : list byte) (offset : nat) : option Z :=
  match byteAt buf offset, byteAt buf (offset + 1), byteAt buf (offset + 2),
        byteAt buf (offset + 3), byteAt buf (offset + 4), byteAt buf (offset + 5),
        byteAt buf (offset + 6), byteAt buf (offset + 7) with
  | Some first, Some b1, Some b2, Some b3, Some b4, Some b5, Some b6, Some last =>
      let lo := first + b1 * 2 ^ 8 + b2 * 2 ^ 16 + b3 * 2 ^ 24 in
      let hi := b4 + b5 * 2 ^ 8 + b6 * 2 ^ 16 + last * 2 ^ 24 in
      Some (lo + Z.shiftl hi 32)
  | _, _, _, _, _, _, _, _ => None
  end.

(** [buf[0] === 1]; on an empty buffer [buf[0]] is [undefined]. *)
Definition tag_is_swap (buf : list byte) : bool :=
  match byteAt buf 0 with
  | Some tag => tag =? 1
  | None => false
  end.

(** [decodeSwapInstruction], on the buffer that [bs58.decode] returns for
    the instruction's [data]. The two reads cannot fail once the length
    test has passed; the [None] of a failed read is kept so that this is
    a property (see [decode_reads_in_range]) and not an assumption. *)
Definition decodeSwapInstruction (buf : list byte) : option DecodedSwap :=
  if (List.length buf <? 17)%nat || negb (tag_is_swap buf)
  then None
  else
    match readBigUInt64LE buf 1, readBigUInt64LE buf 9 with
    | Some a, Some m => Some (mkDecodedSwap a m)
    | _, _ => None
    end.

(** The layout as the specification words it: the unsigned integer whose
    little-endian digits in base 256 are the given bytes. *)
Fixpoint le_uint (bs : list byte) : Z :=
  match bs with
  | [] => 0
  | b :: rest => byte_val b + 256 * le_uint rest
  end.

Definition bytes_at (buf : list byte) (from count : nat) : list byte :=
  firstn count (skipn from buf).

End Decoder.

(** ** JavaScript numbers *)

Module Num.

Inductive number :=
| Fin (q : Q)
| PosInf
| NegInf
| NaN.

Definition is_zero (q : Q) : bool := Qeq_bool q 0.
Definition is_neg (q : Q) : bool := negb (Qle_bool 0 q).

(** [a / b] on numbers. *)
Definition div (a b : number) : number :=
  match a, b with
  | NaN, _ | _, NaN => NaN
  | Fin x, Fin y =>
      if is_zero y
      then (if is_zero x then NaN else if is_neg x then NegInf else PosInf)
      else Fin (x / y)
  | Fin _, (PosInf | NegInf) => Fin 0
  | PosInf, Fin y => if is_neg y then NegInf else PosInf
  | NegInf, Fin y => if is_neg y then PosInf else NegInf
  | (PosInf | NegInf), (PosInf | NegInf) => NaN
  end.

(** [Number(x)] for a bigint [x]. *)
Definition of_bigint (x : Z) : number := Fin (inject_Z x).

(** [10 ** d] for a mint's [decimals]. *)
Definition pow10 (d : nat) : number := Fin (inject_Z (10 ^ Z.of_nat d)).

(** A raw amount in decimal: [raw / 10^d], exactly. *)
Definition to_decimal (raw : Z) (d : nat) : Q :=
  inject_Z raw / inject_Z (10 ^ Z.of_nat d).

(** Equality of values (fractions are not kept reduced). *)
Definition equiv (a b : number) : Prop :=
  match a, b with
  | Fin x, Fin y => (x == y)%Q
  | PosInf, PosInf | NegInf, NegInf => True
  | _, _ => False
  end.

(** [a > 0]. *)
Definition positive (a : number) : Prop :=
  match a with
  | Fin x => (0 < x)%Q
  | PosInf => True
  | _ => False
  end.

End Num.
Export Num(number).

(** ** Ledger data, as the RPC client hands it over *)

Definition PublicKey := string.
Definition Signature := string.

(** [PublicKey.equals]. *)
Definition pk_equals (a b : PublicKey) : bool := String.eqb a b.

(** One entry of [preTokenBalances] / [postTokenBalances]; [amount] is
    [BigInt(uiTokenAmount.amount)]. *)
Record TokenBalance := mkTokenBalance {
  accountIndex : Z;
  mint : PublicKey;
  amount : Z
}.

(** A message account key: a plain address or an object with [pubkey]. *)
Inductive AccountKey :=
| KeyString (s : string)
| KeyObject (pubkey : PublicKey).

Record Instruction := mkInstruction {
  programId : PublicKey;
  accounts : list PublicKey;
  data : list byte
}.

Record TxMeta := mkTxMeta {
  preTokenBalances : option (list TokenBalance);
  postTokenBalances : option (list TokenBalance)
}.

Record ParsedTransaction := mkParsedTransaction {
  accountKeys : list AccountKey;
  instructions : list Instruction;
  meta : option TxMeta;
  blockTime : option Z
}.

(** One entry of [getSignaturesForAddress]. *)
Record ConfirmedSignatureInfo := mkSigInfo {
  sig_signature : Signature;
  sig_slot : nat
}.

(** The RPC connection: transaction lookup, and the signatures of the pool
    account in ledger order, oldest first, with the slot of each. *)
Record Connection := mkConnection {
  getParsedTransaction : Signature -> option ParsedTransaction;
  ledger : list Signature;
  slotOf : Signature -> nat
}.

(** ** src/utils/common.ts *)

Definition toPubkeyArray (keys : list AccountKey) : list PublicKey :=
  map (fun k => match k with KeyString s => s | KeyObject p => p end) keys.

Fixpoint findIndex_from (i : Z) (keys : list PublicKey) (target : PublicKey) : Z :=
  match keys with
  | [] => -1
  | k :: rest => if pk_equals k target then i else findIndex_from (i + 1) rest target
  end.

Definition indexOfKey (keys : list PublicKey) (target : PublicKey) : Z :=
  findIndex_from 0 keys target.

(** [indexOfKey(keys, accounts[i])]. When the instruction has no account
    at position [i] the target is [undefined]: [k.equals(undefined)] is a
    [TypeError] ([None]) on the first key, and [-1] when there is no key. *)
Definition indexOfKey_at (keys accs : list PublicKey) (i : nat) : option Z :=
  match nth_error accs i with
  | Some target => Some (indexOfKey keys target)
  | None => match keys with [] => Some (-1) | _ :: _ => None end
  end.

(** ** src/indexer.ts: data *)

Record SwapData := mkSwapData {
  timestamp : number;
  signature : Signature;
  swappedFrom : PublicKey;
  swappedTo : PublicKey;
  amountBase : number;
  amountQuote : number;
  amountIn : number;
  amountOut : number;
  price : number;
  poolPrice : number
}.

(** The module-level constants that [runIndexer] reads from the key
    directory and from the two mints. *)
Record Config := mkConfig {
  TOKEN_SWAP_PROGRAM_ID : PublicKey;
  mintAAddress : PublicKey;
  mintBAddress : PublicKey;
  decimalsA : nat;
  decimalsB : nat;
  vaultAAddress : PublicKey;
  vaultBAddress : PublicKey
}.

(** The module-level mutable state. [db] is the content of table
    [swap_data] in insertion order, [None] before the handle is opened. *)
Record State := mkState {
  seen : list Signature;
  chartData : list SwapData;
  lastSavedSignature : option Signature;
  db : option (list SwapData);
  lastFlushed : nat
}.

(** How a call ends: normally, or by an exception; either way with the
    state as the call left it. *)
Inductive outcome (S : Type) :=
| Returned (st : S)
| Thrown (st : S).

Arguments Returned {S} st.
Arguments Thrown {S} st.

Definition state_of {S : Type} (o : outcome S) : S :=
  match o with Returned st | Thrown st => st end.

(** ** src/indexer.ts: utilities *)

Definition scaleA (cfg : Config) : number := Num.pow10 (decimalsA cfg).
Definition scaleB (cfg : Config) : number := Num.pow10 (decimalsB cfg).

Definition toFloatA (cfg : Config) (x : Z) : number :=
  Num.div (Num.of_bigint x) (scaleA cfg).
Definition toFloatB (cfg : Config) (x : Z) : number :=
  Num.div (Num.of_bigint x) (scaleB cfg).

(** [diffAmount(bef?, aft?)]: an absent side counts as [0n]. *)
Definition diffAmount (bef aft : option TokenBalance) : Z :=
  (match aft with Some a => amount a | None => 0 end)
  - (match bef with Some b => amount b | None => 0 end).

(** [balances.find((b) => b.accountIndex === idx)]. *)
Definition find_balance (balances : list TokenBalance) (idx : Z) : option TokenBalance :=
  find (fun b => accountIndex b =? idx) balances.

(** The set [seen]. *)
Definition seen_has (sig : Signature) (s : list Signature) : bool :=
  existsb (String.eqb sig) s.

Definition seen_add (sig : Signature) (s : list Signature) : list Signature :=
  if seen_has sig s then s else s ++ [sig].

Definition seen_delete (sig : Signature) (s : list Signature) : list Signature :=
  filter (fun x => negb (String.eqb sig x)) s.

Definition seen_size (s : list Signature) : Z := Z.of_nat (List.length s).

(** [for (const sig of seen.values()) { if (seen.size <= 5_000) break;
    seen.delete(sig); }], the iteration running over the entries in
    insertion order. *)
Fixpoint trim_loop (iter s : list Signature) : list Signature :=
  match iter with
  | [] => s
  | sig :: rest =>
      if seen_size s <=? 5000 then s else trim_loop rest (seen_delete sig s)
  end.

Definition trim_seen (s : list Signature) : list Signature :=
  if seen_size s >? 10000 then trim_loop s s else s.

(** ** src/indexer.ts: flushToDB *)

(** [INSERT OR IGNORE] into a table whose primary key is [signature]. *)
Definition insert_or_ignore (rows : list SwapData) (c : SwapData) : list SwapData :=
  if existsb (fun r => String.eqb (signature r) (signature c)) rows
  then rows
  else rows ++ [c].

Definition flushToDB (st : State) : State :=
  match db st with
  | None => st
  | Some rows =>
      if (List.length (chartData st) =? lastFlushed st)%nat then st
      else
        {| seen := seen st;
           chartData := chartData st;
           lastSavedSignature := lastSavedSignature st;
           db := Some (fold_left insert_or_ignore
                         (skipn (lastFlushed st) (chartData st)) rows);
           lastFlushed := List.length (chartData st) |}
  end.

(** ** src/indexer.ts: handleTx *)

(** What one turn of the loop over the swap instructions does. *)
Inductive iteration :=
| Continue
| Push (row : SwapData)
| Raise.

Section Indexer.

Variable cfg : Config.
Variable connection : Connection.
(** [Date.now()], read when a transaction carries no block time. *)
Variable Date_now : number.

Definition swap_iteration (sig : Signature) (tx : ParsedTransaction)
    (pre post : list TokenBalance) (msgKeys : list PublicKey)
    (inst : Instruction) : iteration :=
  match Decoder.decodeSwapInstruction (data inst) with
  | None => Continue
  | Some _ =>
  match indexOfKey_at msgKeys (accounts inst) 3 with
  | None => Raise
  | Some srcIdx =>
  match indexOfKey_at msgKeys (accounts inst) 6 with
  | None => Raise
  | Some dstIdx =>
  if (srcIdx <? 0) || (dstIdx <? 0) then Continue else
  match find_balance pre srcIdx, find_balance post srcIdx,
        find_balance pre dstIdx, find_balance post dstIdx with
  | Some preSrc, Some postSrc, Some preDst, Some postDst =>
      let inD := diffAmount (Some preSrc) (Some postSrc) in
      let outD := diffAmount (Some preDst) (Some postDst) in
      if (inD >=? 0) || (outD <=? 0) then Continue else
      let amountIn := - inD in
      let amountOut := outD in
      let baseIsApple := pk_equals (mint preSrc) (mintAAddress cfg) in
      let vAIdx := indexOfKey msgKeys (vaultAAddress cfg) in
      let vBIdx := indexOfKey msgKeys (vaultBAddress cfg) in
      if (vAIdx <? 0) || (vBIdx <? 0) then Continue else
      match find_balance post vAIdx, find_balance post vBIdx with
      | Some postVA, Some postVB =>
          let reserveA := amount postVA in
          let reserveB := amount postVB in
          let poolPrice := Num.div (toFloatB cfg reserveB) (toFloatA cfg reserveA) in
          let amountBase := if baseIsApple then amountIn else amountOut in
          let amountQuote := if baseIsApple then amountOut else amountIn in
          let price := Num.div (toFloatB cfg amountQuote) (toFloatA cfg amountBase) in
          let absAmountIn :=
            if baseIsApple then toFloatA cfg amountIn else toFloatB cfg amountIn in
          let absAmountOut :=
            if baseIsApple then toFloatA cfg amountOut else toFloatB cfg amountOut in
          let timestamp :=
            match blockTime tx with
            | Some t => Num.of_bigint t
            | None => Num.div Date_now (Num.Fin 1000)
            end in
          Push {| timestamp := timestamp;
                  signature := sig;
                  swappedFrom := mint preSrc;
                  swappedTo := mint preDst;
                  amountBase := toFloatA cfg amountBase;
                  amountQuote := toFloatB cfg amountQuote;
                  amountIn := absAmountIn;
                  amountOut := absAmountOut;
                  price := price;
                  poolPrice := poolPrice |}
      | _, _ => Continue
      end
  | _, _, _, _ => Continue
  end
  end
  end
  end.

(** [for (const inst of swaps) { ... }] on [chartData]. *)
Fixpoint swap_loop (sig : Signature) (tx : ParsedTransaction)
    (pre post : list TokenBalance) (msgKeys : list PublicKey)
    (swaps : list Instruction) (chart : list SwapData) : outcome (list SwapData) :=
  match swaps with
  | [] => Returned chart
  | inst :: rest =>
      match swap_iteration sig tx pre post msgKeys inst with
      | Continue => swap_loop sig tx pre post msgKeys rest chart
      | Push row => swap_loop sig tx pre post msgKeys rest (chart ++ [row])
      | Raise => Thrown chart
      end
  end.

Definition swap_instructions (tx : ParsedTransaction) : list Instruction :=
  filter (fun i => pk_equals (programId i) (TOKEN_SWAP_PROGRAM_ID cfg))
         (instructions tx).

Definition pre_balances (tx : ParsedTransaction) : list TokenBalance :=
  match meta tx with
  | Some m => match preTokenBalances m with Some l => l | None => [] end
  | None => []
  end.

Definition post_balances (tx : ParsedTransaction) : list TokenBalance :=
  match meta tx with
  | Some m => match postTokenBalances m with Some l => l | None => [] end
  | None => []
  end.

Definition is_empty {A : Type} (l : list A) : bool :=
  match l with [] => true | _ :: _ => false end.

Definition with_seen (st : State) (s : list Signature) : State :=
  {| seen := s; chartData := chartData st;
     lastSavedSignature := lastSavedSignature st;
     db := db st; lastFlushed := lastFlushed st |}.

Definition handleTx (sig : Signature) (slot : option nat) (st : State)
  : outcome State :=
  (* 0 *)
  if seen_has sig (seen st) then Returned st else
  let st1 := with_seen st (seen_add sig (seen st)) in
  (* 1 *)
  match getParsedTransaction connection sig with
  | None => Returned st1
  | Some tx =>
      let pre := pre_balances tx in
      let post := post_balances tx in
      if is_empty pre || is_empty post then Returned st1 else
      (* 2 *)
      let msgKeys := toPubkeyArray (accountKeys tx) in
      (* 3 *)
      let swaps := swap_instructions tx in
      if is_empty swaps then Returned st1 else
      match swap_loop sig tx pre post msgKeys swaps (chartData st1) with
      | Thrown chart =>
          Thrown {| seen := seen st1; chartData := chart;
                    lastSavedSignature := lastSavedSignature st1;
                    db := db st1; lastFlushed := lastFlushed st1 |}
      | Returned chart =>
          (* 4, 5 *)
          Returned {| seen := trim_seen (seen st1); chartData := chart;
                      lastSavedSignature := Some sig;
                      db := db st1; lastFlushed := lastFlushed st1 |}
      end
  end.

End Indexer.

(** The tests that stand before the loop of [handleTx]: the signature is
    new, the transaction is there, both balance lists and the list of
    swap-program instructions are non-empty. *)
Definition enters_loop (cfg : Config) (connection : Connection)
    (sig : Signature) (st : State) : bool :=
  negb (seen_has sig (seen st)) &&
  match getParsedTransaction connection sig with
  | None => false
  | Some tx =>
      negb (is_empty (pre_balances tx) || is_empty (post_balances tx)) &&
      negb (is_empty (swap_instructions cfg tx))
  end.

(** ** Ledger client: getSignaturesForAddress *)

(** The entries that follow the first occurrence of [b]; none when [b]
    does not occur. *)
Fixpoint older_than (b : Signature) (l : list Signature) : list Signature :=
  match l with
  | [] => []
  | x :: rest => if String.eqb x b then rest else older_than b rest
  end.

(** The entries that precede the first occurrence of [u]; all of them when
    [u] does not occur. *)
Fixpoint newer_than (u : Signature) (l : list Signature) : list Signature :=
  match l with
  | [] => []
  | x :: rest => if String.eqb x u then [] else x :: newer_than u rest
  end.

(** What lies strictly between [before] (or the newest end) and [until]
    (or the oldest end), newest first. *)
Definition window (newest_first : list Signature) (before until : option Signature)
  : list Signature :=
  let l := match before with Some b => older_than b newest_first | None => newest_first end in
  match until with Some u => newer_than u l | None => l end.

(** The entry of the ledger for a signature. *)
Definition info (connection : Connection) (s : Signature) : ConfirmedSignatureInfo :=
  mkSigInfo s (slotOf connection s).

(** The RPC method, an external collaborator, after its contract: newest
    first, starting below [before], stopping above [until], at most
    [limit] entries. *)
Definition getSignaturesForAddress (connection : Connection)
    (before until : option Signature) (limit : nat) : list ConfirmedSignatureInfo :=
  map (info connection)
      (firstn limit (window (rev (ledger connection)) before until)).

(** ** src/indexer.ts: backfill and the live subscription *)

Section Backfill.

(** The loop is written over any handler, so that the same text serves
    [handleTx] and the recording of the calls made. *)
Variable S : Type.
Variable handle : Signature -> option nat -> S -> outcome S.
Variable connection : Connection.
Variable limit : nat.

(** [for (const s of sigs) await handle(s.signature, s.slot)]. *)
Fixpoint for_each (sigs : list ConfirmedSignatureInfo) (st : S) : outcome S :=
  match sigs with
  | [] => Returned st
  | s :: rest =>
      match handle (sig_signature s) (Some (sig_slot s)) st with
      | Returned st' => for_each rest st'
      | Thrown st' => Thrown st'
      end
  end.

(** [while (true) { ... }]; [None] when the fuel runs out. [reverse]
    works in place, so [sigs[0]] after the loop is the oldest entry of
    the page. *)
Fixpoint backfill_loop (fuel : nat) (fromSig before : option Signature) (st : S)
  : option (outcome S) :=
  match fuel with
  | O => None
  | Datatypes.S fuel' =>
      let sigs := getSignaturesForAddress connection before fromSig limit in
      if is_empty sigs then Some (Returned st) else
      let sigs := rev sigs in
      match for_each sigs st with
      | Thrown st' => Some (Thrown st')
      | Returned st' =>
          backfill_loop fuel' fromSig (option_map sig_signature (hd_error sigs)) st'
      end
  end.

End Backfill.

Definition page_limit : nat := 1000.

Definition backfill (cfg : Config) (connection : Connection) (Date_now : number)
    (fuel : nat) (fromSig : option Signature) (st : State) : option (outcome State) :=
  backfill_loop (handleTx cfg connection Date_now) connection page_limit
                fuel fromSig None st.

(** The callback registered with [connection.onLogs]. *)
Definition onLogs_callback (cfg : Config) (connection : Connection) (Date_now : number)
    (l_signature : Signature) (ctx_slot : nat) (st : State) : outcome State :=
  handleTx cfg connection Date_now l_signature (Some ctx_slot) st.

(** The signatures handed to the handler, in the order of the calls. *)
Definition record_visit (sig : Signature) (slot : option nat) (visited : list Signature)
  : outcome (list Signature) :=
  Returned (visited ++ [sig]).

Definition backfill_visits (connection : Connection) (limit fuel : nat)
    (fromSig : option Signature) : option (outcome (list Signature)) :=
  backfill_loop record_visit connection limit fuel fromSig None [].

(** Pages of at most [limit] entries, the way the loop cuts the window;
    the fuel bounds the number of pages. *)
Fixpoint pages (fuel limit : nat) (l : list Signature) : list (list Signature) :=
  match fuel, l with
  | O, _ | _, [] => []
  | Datatypes.S fuel', _ :: _ => firstn limit l :: pages fuel' limit (skipn limit l)
  end.

(** ** Deliveries and flushes in any order *)

Inductive op :=
| Deliver (sig : Signature) (slot : option nat)
| Flush.

Definition step (cfg : Config) (connection : Connection) (Date_now : number)
    (o : op) (st : State) : State :=
  match o with
  | Deliver sig slot => state_of (handleTx cfg connection Date_now sig slot st)
  | Flush => flushToDB st
  end.

Definition run (cfg : Config) (connection : Connection) (Date_now : number)
    (ops : list op) (st : State) : State :=
  fold_left (fun s o => step cfg connection Date_now o s) ops st.

(** Rows, or entries of [chartData], that carry a given signature. *)
Definition rows_with (sig : Signature) (rows : list SwapData) : list SwapData :=
  filter (fun r => String.eqb (signature r) sig) rows.

Definition stored (st : State) : list SwapData :=
  match db st with Some rows => rows | None => [] end.

(** ** What a pushed row is made of *)

Section Rows.

Variable cfg : Config.
Variable Date_now : number.

(** The row that the loop pushes for given role and vault snapshots. *)
Definition row_of (sig : Signature) (tx : ParsedTransaction)
    (preSrc postSrc preDst postDst postVA postVB : TokenBalance) : SwapData :=
  let amountIn := - diffAmount (Some preSrc) (Some postSrc) in
  let amountOut := diffAmount (Some preDst) (Some postDst) in
  let baseIsApple := pk_equals (mint preSrc) (mintAAddress cfg) in
  let amountBase := if baseIsApple then amountIn else amountOut in
  let amountQuote := if baseIsApple then amountOut else amountIn in
  {| timestamp := match blockTime tx with
                  | Some t => Num.of_bigint t
                  | None => Num.div Date_now (Num.Fin 1000)
                  end;
     signature := sig;
     swappedFrom := mint preSrc;
     swappedTo := mint preDst;
     amountBase := toFloatA cfg amountBase;
     amountQuote := toFloatB cfg amountQuote;
     amountIn := if baseIsApple then toFloatA cfg amountIn else toFloatB cfg amountIn;
     amountOut := if baseIsApple then toFloatA cfg amountOut else toFloatB cfg amountOut;
     price := Num.div (toFloatB cfg amountQuote) (toFloatA cfg amountBase);
     poolPrice := Num.div (toFloatB cfg (amount postVB)) (toFloatA cfg (amount postVA)) |}.

(** Everything that had to hold for an instruction to push [row]. *)
Inductive pushed (sig : Signature) (tx : ParsedTransaction)
    (pre post : list TokenBalance) (msgKeys : list PublicKey)
    (inst : Instruction) (row : SwapData) : Prop :=
| mkPushed
  (p_srcIdx p_dstIdx : Z)
  (p_preSrc p_postSrc p_preDst p_postDst p_postVA p_postVB : TokenBalance)
  (p_decoded : Decoder.decodeSwapInstruction (data inst) <> None)
  (p_src : indexOfKey_at msgKeys (accounts inst) 3 = Some p_srcIdx)
  (p_dst : indexOfKey_at msgKeys (accounts inst) 6 = Some p_dstIdx)
  (p_src_found : 0 <= p_srcIdx)
  (p_dst_found : 0 <= p_dstIdx)
  (p_find_preSrc : find_balance pre p_srcIdx = Some p_preSrc)
  (p_find_postSrc : find_balance post p_srcIdx = Some p_postSrc)
  (p_find_preDst : find_balance pre p_dstIdx = Some p_preDst)
  (p_find_postDst : find_balance post p_dstIdx = Some p_postDst)
  (p_in_negative : diffAmount (Some p_preSrc) (Some p_postSrc) < 0)
  (p_out_positive : 0 < diffAmount (Some p_preDst) (Some p_postDst))
  (p_vaultA : 0 <= indexOfKey msgKeys (vaultAAddress cfg))
  (p_vaultB : 0 <= indexOfKey msgKeys (vaultBAddress cfg))
  (p_find_postVA :
    find_balance post (indexOfKey msgKeys (vaultAAddress cfg)) = Some p_postVA)
  (p_find_postVB :
    find_balance post (indexOfKey msgKeys (vaultBAddress cfg)) = Some p_postVB)
  (p_row : row = row_of sig tx p_preSrc p_postSrc p_preDst p_postDst p_postVA p_postVB).

End Rows.

(** ** Reading a row and a page *)

(** [row] was pushed while handling [sig]: by a swap-program instruction
    of the transaction that the connection returns for [sig]. *)
Definition pushed_for (cfg : Config) (connection : Connection) (Date_now : number)
    (sig : Signature) (row : SwapData) : Prop :=
  exists tx inst,
    getParsedTransaction connection sig = Some tx /\
    In inst (swap_instructions cfg tx) /\
    pushed cfg Date_now sig tx (pre_balances tx) (post_balances tx)
           (toPubkeyArray (accountKeys tx)) inst row.

(** The user-source delta is strictly negative and the user-destination
    delta strictly positive, the roles being the accounts in positions 3
    and 6 of the instruction. *)
Definition swap_shaped (pre post : list TokenBalance) (msgKeys : list PublicKey)
    (inst : Instruction) : Prop :=
  exists srcIdx dstIdx,
    indexOfKey_at msgKeys (accounts inst) 3 = Some srcIdx /\
    indexOfKey_at msgKeys (accounts inst) 6 = Some dstIdx /\
    diffAmount (find_balance pre srcIdx) (find_balance post srcIdx) < 0 /\
    0 < diffAmount (find_balance pre dstIdx) (find_balance post dstIdx).

(** The price of a pushed row, from the two deltas. *)
Definition price_reading (cfg : Config) (row : SwapData) (rawIn rawOut : Z) : Prop :=
  price row = Num.div (amountQuote row) (amountBase row) /\
  price row =
    if pk_equals (swappedFrom row) (mintAAddress cfg)
    then Num.Fin (Num.to_decimal rawOut (decimalsB cfg) / Num.to_decimal rawIn (decimalsA cfg))
    else Num.Fin (Num.to_decimal rawIn (decimalsB cfg) / Num.to_decimal rawOut (decimalsA cfg)).

(** The pool price of a row, from the two vault snapshots taken after the
    transaction. The division is that of JavaScript numbers; it is the
    rational quotient as soon as vault A is not empty. *)
Definition pool_price_reading (cfg : Config) (row : SwapData)
    (postVA postVB : TokenBalance) : Prop :=
  let reserveA := Num.to_decimal (amount postVA) (decimalsA cfg) in
  let reserveB := Num.to_decimal (amount postVB) (decimalsB cfg) in
  poolPrice row = Num.div (Num.Fin reserveB) (Num.Fin reserveA) /\
  (amount postVA <> 0 -> poolPrice row = Num.Fin (reserveB / reserveA)).

(** The remaining window sits inside the ledger, cut at [until]. *)
Definition framed (L : list Signature) (until : option Signature)
    (R : list Signature) : Prop :=
  exists P T, L = P ++ R ++ T /\
    match until with
    | None => T = []
    | Some u => ~ In u R /\ (T = [] \/ exists T', T = u :: T')
    end.

(** Deliveries of the given signatures, one after the other. *)
Definition deliver_all (sigs : list Signature) : list op :=
  map (fun sig => Deliver sig None) sigs.

(** What the sink keeps true: the table has one row per signature at
    most, [seen] has no repetition, and the entries of [chartData] below
    [lastFlushed] have their signature in the table. *)
Definition sink_ok (st : State) : Prop :=
  exists rows,
    db st = Some rows /\
    NoDup (map signature rows) /\
    NoDup (seen st) /\
    (lastFlushed st <= List.length (chartData st))%nat /\
    Forall (fun row => In (signature row) (map signature rows))
           (firstn (lastFlushed st) (chartData st)).

(** ** A pool and some transactions to run the definitions on *)

Module Sample.

Local Open Scope string_scope.

(** Apple has 9 decimals and Banana 6. *)
Definition cfg : Config :=
  {| TOKEN_SWAP_PROGRAM_ID := "SwapProgram";
     mintAAddress := "MintApple";
     mintBAddress := "MintBanana";
     decimalsA := 9;
     decimalsB := 6;
     vaultAAddress := "VaultA";
     vaultBAddress := "VaultB" |}.

(** The same pool with 6 decimals on both mints. *)
Definition cfg_same_decimals : Config :=
  {| TOKEN_SWAP_PROGRAM_ID := "SwapProgram";
     mintAAddress := "MintApple";
     mintBAddress := "MintBanana";
     decimalsA := 6;
     decimalsB := 6;
     vaultAAddress := "VaultA";
     vaultBAddress := "VaultB" |}.

(** Positions: 0 Payer, 1 Pool, 2 Authority, 3 UserApple, 4 VaultA,
    5 VaultB, 6 UserBanana, 7 PoolMint, 8 FeeAccount, 9 TokenProgram,
    10 SwapProgram. *)
Definition keys : list AccountKey :=
  [ KeyString "Payer"; KeyString "Pool"; KeyString "Authority";
    KeyObject "UserApple"; KeyObject "VaultA"; KeyObject "VaultB";
    KeyObject "UserBanana"; KeyString "PoolMint"; KeyString "FeeAccount";
    KeyString "TokenProgram"; KeyString "SwapProgram" ].

(** Tag 1, amountIn = 1000000000, minAmountOut = 1. *)
Definition swap_payload : list byte :=
  [ x01; x00; xca; x9a; x3b; x00; x00; x00; x00;
         x01; x00; x00; x00; x00; x00; x00; x00 ].

(** The same amounts under tag 2. *)
Definition other_payload : list byte :=
  [ x02; x00; xca; x9a; x3b; x00; x00; x00; x00;
         x01; x00; x00; x00; x00; x00; x00; x00 ].

Definition swap_apple_to_banana : Instruction :=
  {| programId := "SwapProgram";
     accounts := [ "Pool"; "Authority"; "Payer"; "UserApple"; "VaultA";
                   "VaultB"; "UserBanana"; "PoolMint"; "FeeAccount";
                   "TokenProgram" ];
     data := swap_payload |}.

Definition swap_banana_to_apple : Instruction :=
  {| programId := "SwapProgram";
     accounts := [ "Pool"; "Authority"; "Payer"; "UserBanana"; "VaultB";
                   "VaultA"; "UserApple"; "PoolMint"; "FeeAccount";
                   "TokenProgram" ];
     data := swap_payload |}.

Definition not_a_swap : Instruction :=
  {| programId := "SwapProgram";
     accounts := accounts swap_apple_to_banana;
     data := other_payload |}.

Definition token_transfer : Instruction :=
  {| programId := "TokenProgram";
     accounts := [ "UserApple"; "VaultA"; "Payer" ];
     data := [ x03 ] |}.

Definition balances (userApple vaultA vaultB userBanana : Z) : list TokenBalance :=
  [ mkTokenBalance 3 "MintApple" userApple;
    mkTokenBalance 4 "MintApple" vaultA;
    mkTokenBalance 5 "MintBanana" vaultB;
    mkTokenBalance 6 "MintBanana" userBanana ].

Definition tx_of (insts : list Instruction) (pre post : list TokenBalance)
  : ParsedTransaction :=
  {| accountKeys := keys;
     instructions := insts;
     meta := Some (mkTxMeta (Some pre) (Some post));
     blockTime := Some 1700000000 |}.

(** One Apple (10^9 units) sold for two Bananas (2 * 10^6 units). *)
Definition tx_sell_apple : ParsedTransaction :=
  tx_of [ swap_apple_to_banana ]
        (balances 5000000000 100000000000 200000000 0)
        (balances 4000000000 101000000000 198000000 2000000).

(** The same trade, the Banana account of the user being created by the
    transaction: it has no entry before. *)
Definition tx_sell_apple_fresh_account : ParsedTransaction :=
  tx_of [ swap_apple_to_banana ]
        [ mkTokenBalance 3 "MintApple" 5000000000;
          mkTokenBalance 4 "MintApple" 100000000000;
          mkTokenBalance 5 "MintBanana" 200000000 ]
        (balances 4000000000 101000000000 198000000 2000000).

(** Two Bananas (2 * 10^6 units) sold for 10^6 units of Apple. *)
Definition tx_sell_banana : ParsedTransaction :=
  tx_of [ swap_banana_to_apple ]
        (balances 0 100000000 200000000 5000000)
        (balances 1000000 99000000 202000000 3000000).

(** A swap-program instruction that is not a swap. *)
Definition tx_rejected : ParsedTransaction :=
  tx_of [ not_a_swap ]
        (balances 5000000000 100000000000 200000000 0)
        (balances 5000000000 100000000000 200000000 0).

(** A token transfer: no instruction of the swap program. *)
Definition tx_transfer : ParsedTransaction :=
  tx_of [ token_transfer ]
        (balances 5000000000 100000000000 200000000 0)
        (balances 4000000000 101000000000 200000000 0).

Definition lookup (table : list (Signature * ParsedTransaction)) (sig : Signature)
  : option ParsedTransaction :=
  option_map snd (find (fun p => String.eqb (fst p) sig) table).

Definition connection_of (table : list (Signature * ParsedTransaction))
  : Connection :=
  {| getParsedTransaction := lookup table;
     ledger := map fst table;
     slotOf := fun _ => 0%nat |}.

Definition connection : Connection :=
  connection_of [ ("sigSellApple", tx_sell_apple);
                  ("sigFresh", tx_sell_apple_fresh_account);
                  ("sigSellBanana", tx_sell_banana);
                  ("sigRejected", tx_rejected);
                  ("sigTransfer", tx_transfer) ].

Definition Date_now : number := Num.Fin 1700000000000.

(** The state right after the table has been created, empty. *)
Definition empty_state : State :=
  {| seen := []; chartData := []; lastSavedSignature := None;
     db := Some []; lastFlushed := 0 |}.

End Sample.

(** ** A ledger longer than a page *)

Module LongLedger.

(** The signature of the [n]-th transaction. *)
Definition T (n : nat) : Signature :=
  String "T" (NilEmpty.string_of_uint (Nat.to_uint n)).

(** [T 1 .. T 1002]; the transactions themselves are not to be had. *)
Definition connection : Connection :=
  {| getParsedTransaction := fun _ => None;
     ledger := map T (seq 1 1002);
     slotOf := fun _ => 0%nat |}.

End LongLedger.

(** ** A signature that comes back after 10000 others *)

Module Eviction.

Definition X : Signature := "sigSellApple"%string.

(** The sale of one Apple under [X]; under every other signature a
    transaction whose only swap-program instruction is not a swap. *)
Definition connection : Connection :=
  {| getParsedTransaction :=
       fun sig => if String.eqb sig X then Some Sample.tx_sell_apple
                  else Some Sample.tx_rejected;
     ledger := [];
     slotOf := fun _ => 0%nat |}.

Definition others (n : nat) : list Signature := map LongLedger.T (seq 1 n).

(** The state after the first delivery of [X], and the rows it pushed. *)
Definition first_state : State :=
  state_of (handleTx Sample.cfg connection Sample.Date_now X None Sample.empty_state).

Definition pushed_rows : list SwapData := chartData first_state.

(** [X], then [T 1 .. T (n + 1)], then [X] again. *)
Definition deliveries_upto (n : nat) : list op :=
  Deliver X None
    :: map (fun sig => Deliver sig None) (others (S n))
    ++ [Deliver X None].

(** [X], then [T 1 .. T 10000], then [X] again. *)
Definition deliveries : list op := deliveries_upto (Z.to_nat 9999).

End Eviction.

(** ** src/indexer.ts: start-up and reconnection *)

(** The module state once [runIndexer] has opened the table. *)
Definition opened (table : list SwapData) : State :=
  {| seen := []; chartData := []; lastSavedSignature := None;
     db := Some table; lastFlushed := 0 |}.

(** [chartData.push(r); seen.add(r.signature);] *)
Definition restore_row (st : State) (r : SwapData) : State :=
  {| seen := seen_add (signature r) (seen st);
     chartData := chartData st ++ [r];
     lastSavedSignature := lastSavedSignature st;
     db := db st;
     lastFlushed := lastFlushed st |}.

(** Step 1 of [runIndexer]: [rows] is what
    [SELECT * FROM swap_data ORDER BY timestamp ASC] returns on [table]. *)
Definition restore (table rows : list SwapData) : State :=
  let st := fold_left restore_row rows (opened table) in
  {| seen := seen st;
     chartData := chartData st;
     lastSavedSignature :=
       match rows with
       | [] => lastSavedSignature st
       | _ :: _ => option_map signature (nth_error rows (List.length rows - 1))
       end;
     db := db st;
     lastFlushed := List.length (chartData st) |}.

(** The handler of the socket's [open] event, and the call at boot:
    [await backfill(lastSavedSignature)]. *)
Definition on_open (cfg : Config) (connection : Connection) (Date_now : number)
    (fuel : nat) (st : State) : option (outcome State) :=
  backfill cfg connection Date_now fuel (lastSavedSignature st) st.

(** The part of [enters_loop] that the transaction alone decides. *)
Definition tx_reaches_loop (cfg : Config) (connection : Connection)
    (sig : Signature) : bool :=
  match getParsedTransaction connection sig with
  | None => false
  | Some tx =>
      negb (is_empty (pre_balances tx) || is_empty (post_balances tx)) &&
      negb (is_empty (swap_instructions cfg tx))
  end.

(** ** The API server: the chart endpoint *)

Module Api.

(** [req.query.count]: absent, a text that reads as an integer, or a text
    that is no number. *)
Inductive count_param :=
| CountAbsent
| CountNumber (n : Z)
| CountNaN.

(** [-count], with [count = req.query.count ?? 10], as the integer that
    [slice] makes of it ([NaN] counts as 0). *)
Definition minus_count (c : count_param) : Z :=
  match c with
  | CountAbsent => - 10
  | CountNumber n => - n
  | CountNaN => 0
  end.

(** [Array.prototype.slice(start)]: a negative start counts from the
    end; both are clamped to the array. *)
Definition slice_from {A : Type} (start : Z) (l : list A) : list A :=
  let len := Z.of_nat (List.length l) in
  let k := if start <? 0 then Z.max (len + start) 0 else Z.min start len in
  skipn (Z.to_nat k) l.

(** The loop over [candles]: what follows the first candle whose
    signature is [after], if there is one. *)
Fixpoint after_first (after : string) (candles : list SwapData)
  : option (list SwapData) :=
  match candles with
  | [] => None
  | candle :: rest =>
      if String.eqb (signature candle) after then Some rest
      else after_first after rest
  end.

(** [after == "null" || after == "undefined"] turns it into [null], and
    [if (after)] also lets the empty text through as absent. *)
Definition effective_after (after : option string) : option string :=
  match after with
  | None => None
  | Some a =>
      if String.eqb a "null" || String.eqb a "undefined" || String.eqb a ""
      then None else Some a
  end.

(** The handler of [GET /v1/main/chart]: the body of the answer. *)
Definition chart (count : count_param) (after : option string)
    (chartData : list SwapData) : list SwapData :=
  let candles := slice_from (minus_count count) chartData in
  match effective_after after with
  | None => candles
  | Some a =>
      match after_first a candles with
      | Some rest => rest
      | None => candles
      end
  end.

End Api.

(** ** More transactions *)

Module Sample2.

Local Open Scope string_scope.

(** A swap instruction that names two accounts only. *)
Definition short_swap : Instruction :=
  {| programId := "SwapProgram";
     accounts := [ "Pool"; "Authority" ];
     data := Sample.swap_payload |}.

(** The sale of one Apple, with a broken swap instruction behind it. *)
Definition tx_then_short : ParsedTransaction :=
  Sample.tx_of [ Sample.swap_apple_to_banana; short_swap ]
               (Sample.balances 5000000000 100000000000 200000000 0)
               (Sample.balances 4000000000 101000000000 198000000 2000000).

(** The same swap instruction twice in one transaction. *)
Definition tx_twice : ParsedTransaction :=
  Sample.tx_of [ Sample.swap_apple_to_banana; Sample.swap_apple_to_banana ]
               (Sample.balances 5000000000 100000000000 200000000 0)
               (Sample.balances 4000000000 101000000000 198000000 2000000).

Definition connection : Connection :=
  Sample.connection_of [ ("sigSellApple", Sample.tx_sell_apple);
                         ("sigShort", tx_then_short);
                         ("sigTwice", tx_twice);
                         ("sigRejected", Sample.tx_rejected) ].

(** The rows that the two sales leave in [chartData]. *)
Definition row_apple : SwapData :=
  row_of Sample.cfg Sample.Date_now "sigSellApple" Sample.tx_sell_apple
         (mkTokenBalance 3 "MintApple" 5000000000)
         (mkTokenBalance 3 "MintApple" 4000000000)
         (mkTokenBalance 6 "MintBanana" 0)
         (mkTokenBalance 6 "MintBanana" 2000000)
         (mkTokenBalance 4 "MintApple" 101000000000)
         (mkTokenBalance 5 "MintBanana" 198000000).

Definition row_twice : SwapData :=
  row_of Sample.cfg Sample.Date_now "sigTwice" tx_twice
         (mkTokenBalance 3 "MintApple" 5000000000)
         (mkTokenBalance 3 "MintApple" 4000000000)
         (mkTokenBalance 6 "MintBanana" 0)
         (mkTokenBalance 6 "MintBanana" 2000000)
         (mkTokenBalance 4 "MintApple" 101000000000)
         (mkTokenBalance 5 "MintBanana" 198000000).

End Sample2.

(** * Properties *)

(** ** The instruction decoder *)

Module DecoderFacts.
Import Decoder.

Lemma byte_val_range (b : byte) : 0 <= byte_val b < 256.
Proof.
  unfold byte_val. pose proof (Byte.to_N_bounded b). lia.
Qed.

Lemma byte_val_one (b : byte) : byte_val b = 1 <-> b = x01.
Proof.
  split.
  - intros H. unfold byte_val in H.
    assert (Hn : Byte.to_N b = 1%N) by lia.
    pose proof (Byte.of_to_N b) as Hb. rewrite Hn in Hb.
    vm_compute in Hb. congruence.
  - intros ->. reflexivity.
Qed.

Lemma le_uint_range (bs : list byte) :
  0 <= le_uint bs < 256 ^ Z.of_nat (List.length bs).
Proof.
  induction bs as [|b bs IH].
  - simpl. lia.
  - cbn [le_uint List.length]. rewrite Nat2Z.inj_succ, Z.pow_succ_r by lia.
    pose proof (byte_val_range b). nia.
Qed.

Lemma tag_is_swap_spec (buf : list byte) :
  tag_is_swap buf = true <-> nth_error buf 0 = Some x01.
Proof.
  unfold tag_is_swap, byteAt. destruct buf as [|b buf]; simpl.
  - split; discriminate.
  - rewrite Z.eqb_eq, byte_val_one. split; congruence.
Qed.

(** Once seventeen bytes are there, both reads succeed and return the
    little-endian value of their eight bytes. *)
Lemma decode_reads_in_range (buf : list byte) :
  (17 <= List.length buf)%nat ->
  readBigUInt64LE buf 1 = Some (le_uint (bytes_at buf 1 8)) /\
  readBigUInt64LE buf 9 = Some (le_uint (bytes_at buf 9 8)).
Proof.
  intros Hlen.
  do 17 (destruct buf as [|? buf]; [simpl in Hlen; lia|]).
  unfold readBigUInt64LE, byteAt, bytes_at. cbn [Nat.add nth_error option_map skipn firstn le_uint].
  split; f_equal; rewrite Z.shiftl_mul_pow2 by lia; ring.
Qed.

End DecoderFacts.

(** C6. [decodeSwapInstruction] returns null exactly when the payload has
    fewer than 17 bytes or its first byte is not the swap tag 1; otherwise
    it returns the little-endian unsigned 64-bit integers held in bytes
    1-8 ([amountIn]) and 9-16 ([minAmountOut]). Being a function of the
    payload alone, it has no effect on any state. *)
Theorem decode_exact (buf : list byte) :
  (Decoder.decodeSwapInstruction buf = None <->
     (List.length buf < 17)%nat \/ nth_error buf 0 <> Some x01) /\
  (forall d, Decoder.decodeSwapInstruction buf = Some d ->
     Decoder.amountIn d = Decoder.le_uint (Decoder.bytes_at buf 1 8) /\
     Decoder.minAmountOut d = Decoder.le_uint (Decoder.bytes_at buf 9 8) /\
     0 <= Decoder.amountIn d < 2 ^ 64 /\
     0 <= Decoder.minAmountOut d < 2 ^ 64).
Proof.
  unfold Decoder.decodeSwapInstruction.
  destruct (Nat.ltb_spec (List.length buf) 17) as [Hshort | Hlong].
  - cbn [orb]. split; [split; auto | discriminate].
  - cbn [orb].
    destruct (DecoderFacts.decode_reads_in_range buf Hlong) as [H1 H9].
    rewrite H1, H9.
    destruct (Decoder.tag_is_swap buf) eqn:Htag; cbn [negb].
    + apply DecoderFacts.tag_is_swap_spec in Htag. split.
      * split; [discriminate | intros [H | H]; [lia | congruence]].
      * intros d Hd. inversion Hd; subst d; cbn.
        pose proof (DecoderFacts.le_uint_range (Decoder.bytes_at buf 1 8)) as R1.
        pose proof (DecoderFacts.le_uint_range (Decoder.bytes_at buf 9 8)) as R9.
        assert (L1 : List.length (Decoder.bytes_at buf 1 8) = 8%nat).
        { unfold Decoder.bytes_at. rewrite length_firstn, length_skipn. lia. }
        assert (L9 : List.length (Decoder.bytes_at buf 9 8) = 8%nat).
        { unfold Decoder.bytes_at. rewrite length_firstn, length_skipn. lia. }
        rewrite L1 in R1. rewrite L9 in R9.
        change (256 ^ Z.of_nat 8) with (2 ^ 64) in R1, R9. auto.
    + split; [|discriminate].
      split; [intros _; right | reflexivity].
      intros Hx. apply DecoderFacts.tag_is_swap_spec in Hx. congruence.
Qed.

Lemma decode_exact_witness :
  Decoder.decodeSwapInstruction Sample.swap_payload
    = Some (Decoder.mkDecodedSwap 1000000000 1) /\
  1000000000 = Decoder.le_uint (Decoder.bytes_at Sample.swap_payload 1 8).
Proof.
  split; [reflexivity|].
  exact (proj1 (proj2 (decode_exact Sample.swap_payload)
                      (Decoder.mkDecodedSwap 1000000000 1) eq_refl)).
Defined.

(** ** Numbers *)

Module NumFacts.
Import Num.

Lemma pow10_pos (d : nat) : 0 < 10 ^ Z.of_nat d.
Proof. apply Z.pow_pos_nonneg; lia. Qed.

Lemma is_zero_inject (z : Z) : z <> 0 -> is_zero (inject_Z z) = false.
Proof.
  intros Hz. unfold is_zero. destruct (Qeq_bool _ _) eqn:E; [|reflexivity].
  apply Qeq_bool_eq in E. unfold Qeq in E. simpl in E. lia.
Qed.

(** Dividing a bigint by a scale [10 ** d] gives a finite number. *)
Lemma scaled_fin (x : Z) (d : nat) :
  div (of_bigint x) (pow10 d) = Fin (inject_Z x / inject_Z (10 ^ Z.of_nat d)).
Proof.
  unfold div, of_bigint, pow10.
  rewrite is_zero_inject; [reflexivity|]. pose proof (pow10_pos d). lia.
Qed.

Lemma scaled_pos (x : Z) (d : nat) :
  0 < x -> (0 < inject_Z x / inject_Z (10 ^ Z.of_nat d))%Q.
Proof.
  intros Hx. apply Qlt_shift_div_l.
  - change 0%Q with (inject_Z 0). rewrite <- Zlt_Qlt. apply pow10_pos.
  - rewrite Qmult_0_l. change 0%Q with (inject_Z 0). rewrite <- Zlt_Qlt. exact Hx.
Qed.

Lemma is_zero_pos (q : Q) : (0 < q)%Q -> is_zero q = false.
Proof.
  intros Hq. unfold is_zero. destruct (Qeq_bool _ _) eqn:E; [|reflexivity].
  apply Qeq_bool_eq in E. rewrite E in Hq. exfalso. exact (Qlt_irrefl 0 Hq).
Qed.

(** A ratio of two finite numbers with a positive divisor is the finite
    ratio. *)
Lemma div_fin (p q : Q) : (0 < q)%Q -> div (Fin p) (Fin q) = Fin (p / q).
Proof. intros Hq. unfold div. now rewrite is_zero_pos. Qed.

End NumFacts.

(** ** One turn of the loop, read backwards *)

Section IterationFacts.

Variable cfg : Config.
Variable Date_now : number.

Lemma swap_iteration_push sig tx pre post msgKeys inst row :
  swap_iteration cfg Date_now sig tx pre post msgKeys inst = Push row ->
  pushed cfg Date_now sig tx pre post msgKeys inst row.
Proof.
  unfold swap_iteration.
  destruct (Decoder.decodeSwapInstruction (data inst)) eqn:Hdec; [|discriminate].
  destruct (indexOfKey_at msgKeys (accounts inst) 3) as [srcIdx|] eqn:Hs; [|discriminate].
  destruct (indexOfKey_at msgKeys (accounts inst) 6) as [dstIdx|] eqn:Hd; [|discriminate].
  destruct ((srcIdx <? 0) || (dstIdx <? 0)) eqn:Hneg; [discriminate|].
  apply orb_false_elim in Hneg. destruct Hneg as [Hs0 Hd0].
  apply Z.ltb_ge in Hs0. apply Z.ltb_ge in Hd0.
  destruct (find_balance pre srcIdx) as [preSrc|] eqn:F1; [|discriminate].
  destruct (find_balance post srcIdx) as [postSrc|] eqn:F2; [|discriminate].
  destruct (find_balance pre dstIdx) as [preDst|] eqn:F3; [|discriminate].
  destruct (find_balance post dstIdx) as [postDst|] eqn:F4; [|discriminate].
  destruct ((_ >=? 0) || (_ <=? 0)) eqn:Hsign; [discriminate|].
  apply orb_false_elim in Hsign. destruct Hsign as [Hin Hout].
  destruct ((_ <? 0) || (_ <? 0)) eqn:Hv; [discriminate|].
  apply orb_false_elim in Hv. destruct Hv as [Hva Hvb].
  apply Z.ltb_ge in Hva. apply Z.ltb_ge in Hvb.
  destruct (find_balance post (indexOfKey msgKeys (vaultAAddress cfg)))
    as [postVA|] eqn:F5; [|discriminate].
  destruct (find_balance post (indexOfKey msgKeys (vaultBAddress cfg)))
    as [postVB|] eqn:F6; [|discriminate].
  intros Hrow. inversion Hrow; subst row; clear Hrow.
  econstructor; try eassumption.
  - congruence.
  - rewrite Z.geb_leb in Hin. apply Z.leb_gt in Hin. exact Hin.
  - apply Z.leb_gt in Hout. exact Hout.
  - reflexivity.
Qed.

End IterationFacts.

(** ** What a call of [handleTx] adds to [chartData] *)

Section HandleTxFacts.

Variable cfg : Config.
Variable connection : Connection.
Variable Date_now : number.

Let iter := swap_iteration cfg Date_now.

Lemma swap_loop_rows sig tx pre post msgKeys swaps :
  forall chart, exists new,
    state_of (swap_loop cfg Date_now sig tx pre post msgKeys swaps chart)
      = chart ++ new /\
    Forall (fun row => exists inst, In inst swaps /\
              iter sig tx pre post msgKeys inst = Push row) new.
Proof.
  induction swaps as [|inst rest IH]; intros chart; cbn [swap_loop].
  - exists []. split; [now rewrite app_nil_r | constructor].
  - destruct (swap_iteration cfg Date_now sig tx pre post msgKeys inst) as [|row|] eqn:E.
    + destruct (IH chart) as (new & Hnew & Hall). exists new. split; [exact Hnew|].
      eapply Forall_impl; [|exact Hall]. intros r (i & Hi & Hr). exists i. split; [now right|exact Hr].
    + destruct (IH (chart ++ [row])) as (new & Hnew & Hall). exists (row :: new). split.
      * rewrite Hnew, <- app_assoc. reflexivity.
      * constructor.
        -- exists inst. split; [now left | exact E].
        -- eapply Forall_impl; [|exact Hall]. intros r (i & Hi & Hr).
           exists i. split; [now right|exact Hr].
    + exists []. split; [now rewrite app_nil_r | constructor].
Qed.

(** [handleTx] only appends to [chartData], and only rows pushed for its
    signature. *)
Lemma handleTx_appends sig slot st :
  exists new,
    chartData (state_of (handleTx cfg connection Date_now sig slot st))
      = chartData st ++ new /\
    Forall (pushed_for cfg connection Date_now sig) new.
Proof.
  unfold handleTx.
  destruct (seen_has sig (seen st)).
  { exists []. split; [now rewrite app_nil_r | constructor]. }
  destruct (getParsedTransaction connection sig) as [tx|] eqn:Htx.
  2:{ exists []. split; [now rewrite app_nil_r | constructor]. }
  destruct (is_empty (pre_balances tx) || is_empty (post_balances tx)).
  { exists []. split; [now rewrite app_nil_r | constructor]. }
  destruct (is_empty (swap_instructions cfg tx)).
  { exists []. split; [now rewrite app_nil_r | constructor]. }
  cbn [with_seen chartData].
  destruct (swap_loop_rows sig tx (pre_balances tx) (post_balances tx)
              (toPubkeyArray (accountKeys tx)) (swap_instructions cfg tx)
              (chartData st)) as (new & Hnew & Hall).
  exists new. split.
  - destruct (swap_loop _ _ _ _ _ _ _ _ _); cbn in *; exact Hnew.
  - eapply Forall_impl; [|exact Hall]. intros row (inst & Hin & Hrow).
    exists tx, inst. repeat split; auto.
    apply swap_iteration_push. exact Hrow.
Qed.

(** A signature that is in [seen] is left alone. *)
Lemma handleTx_seen sig slot st :
  seen_has sig (seen st) = true ->
  handleTx cfg connection Date_now sig slot st = Returned st.
Proof. intros H. unfold handleTx. now rewrite H. Qed.

End HandleTxFacts.

Lemma seen_has_In (sig : Signature) (s : list Signature) :
  seen_has sig s = true <-> In sig s.
Proof.
  unfold seen_has. rewrite existsb_exists. split.
  - intros (x & Hx & E). apply String.eqb_eq in E. now subst.
  - intros H. exists sig. split; [exact H | apply String.eqb_refl].
Qed.

(** ** The sign test and the amounts *)

Lemma pushed_swap_shaped cfg now sig tx pre post msgKeys inst row :
  pushed cfg now sig tx pre post msgKeys inst row ->
  swap_shaped pre post msgKeys inst.
Proof.
  intros []. exists p_srcIdx, p_dstIdx.
  rewrite p_find_preSrc, p_find_postSrc, p_find_preDst, p_find_postDst. auto.
Qed.

Lemma pushed_amounts_positive cfg now sig tx pre post msgKeys inst row :
  pushed cfg now sig tx pre post msgKeys inst row ->
  Num.positive (amountIn row) /\ Num.positive (amountOut row).
Proof.
  intros []. subst row. unfold row_of. cbn [amountIn amountOut].
  destruct (pk_equals _ _); unfold toFloatA, toFloatB, scaleA, scaleB;
    rewrite !NumFacts.scaled_fin; cbn [Num.positive];
    split; apply NumFacts.scaled_pos; lia.
Qed.

(** C5. A swap-program instruction pushes a row only when the
    user-source delta is strictly negative and the user-destination delta
    strictly positive; with any other sign combination it pushes nothing;
    and every row that [handleTx] appends to [chartData] comes from an
    instruction with that shape and has [amountIn > 0] and
    [amountOut > 0]. *)
Theorem swap_shape_required (cfg : Config) (connection : Connection)
    (Date_now : number) :
  (forall sig tx pre post msgKeys inst row,
      swap_iteration cfg Date_now sig tx pre post msgKeys inst = Push row ->
      swap_shaped pre post msgKeys inst /\
      Num.positive (amountIn row) /\ Num.positive (amountOut row)) /\
  (forall sig tx pre post msgKeys inst,
      ~ swap_shaped pre post msgKeys inst ->
      forall row, swap_iteration cfg Date_now sig tx pre post msgKeys inst <> Push row) /\
  (forall sig slot st,
      exists new,
        chartData (state_of (handleTx cfg connection Date_now sig slot st))
          = chartData st ++ new /\
        Forall (fun row =>
                  Num.positive (amountIn row) /\ Num.positive (amountOut row) /\
                  exists tx inst,
                    getParsedTransaction connection sig = Some tx /\
                    In inst (swap_instructions cfg tx) /\
                    swap_shaped (pre_balances tx) (post_balances tx)
                                (toPubkeyArray (accountKeys tx)) inst) new).
Proof.
  split; [|split].
  - intros sig tx pre post msgKeys inst row H.
    apply swap_iteration_push in H. split.
    + eapply pushed_swap_shaped; eassumption.
    + eapply pushed_amounts_positive; eassumption.
  - intros sig tx pre post msgKeys inst Hno row H.
    apply swap_iteration_push in H. apply Hno.
    eapply pushed_swap_shaped; eassumption.
  - intros sig slot st.
    destruct (handleTx_appends cfg connection Date_now sig slot st) as (new & Hnew & Hall).
    exists new. split; [exact Hnew|].
    eapply Forall_impl; [|exact Hall].
    intros row (tx & inst & Htx & Hin & Hp).
    destruct (pushed_amounts_positive Hp) as [Hi Ho].
    split; [exact Hi|]. split; [exact Ho|].
    exists tx, inst. repeat split; auto.
    eapply pushed_swap_shaped; eassumption.
Qed.

Lemma swap_shape_required_witness :
  swap_shaped (pre_balances Sample.tx_sell_apple) (post_balances Sample.tx_sell_apple)
              (toPubkeyArray (accountKeys Sample.tx_sell_apple))
              Sample.swap_apple_to_banana /\
  (forall row,
      swap_iteration Sample.cfg Sample.Date_now "sigRejected"%string Sample.tx_rejected
        (pre_balances Sample.tx_rejected) (post_balances Sample.tx_rejected)
        (toPubkeyArray (accountKeys Sample.tx_rejected))
        Sample.swap_apple_to_banana <> Push row).
Proof.
  destruct (swap_shape_required Sample.cfg Sample.connection Sample.Date_now)
    as (Honly & Hnone & _).
  split.
  - eapply (Honly "sigSellApple"%string Sample.tx_sell_apple). reflexivity.
  - apply Hnone. intros (s & d & Hs & Hd & Hin & Hout).
    vm_compute in Hs, Hd. inversion Hs; inversion Hd; subst s d.
    vm_compute in Hin. discriminate.
Defined.

(** C10. When the signature is already in [seen], [handleTx] returns at
    once with the state it was given: [chartData], [lastSavedSignature],
    [lastFlushed] and [seen] (and the table) are what they were. *)
Theorem handleTx_seen_unchanged (cfg : Config) (connection : Connection)
    (Date_now : number) (sig : Signature) (slot : option nat) (st : State) :
  In sig (seen st) ->
  handleTx cfg connection Date_now sig slot st = Returned st.
Proof.
  intros H. apply handleTx_seen. now apply seen_has_In.
Qed.

Lemma handleTx_seen_unchanged_witness :
  handleTx Sample.cfg Sample.connection Sample.Date_now "sigSellApple"%string None
    (with_seen Sample.empty_state ["sigSellApple"%string])
  = Returned (with_seen Sample.empty_state ["sigSellApple"%string]).
Proof.
  apply handleTx_seen_unchanged. simpl. left. reflexivity.
Defined.

(** ** Price *)

Lemma to_decimal_pos (x : Z) (d : nat) : 0 < x -> (0 < Num.to_decimal x d)%Q.
Proof. apply NumFacts.scaled_pos. Qed.

Lemma toFloatA_decimal cfg x : toFloatA cfg x = Num.Fin (Num.to_decimal x (decimalsA cfg)).
Proof. apply NumFacts.scaled_fin. Qed.

Lemma toFloatB_decimal cfg x : toFloatB cfg x = Num.Fin (Num.to_decimal x (decimalsB cfg)).
Proof. apply NumFacts.scaled_fin. Qed.

Lemma pushed_price cfg now sig tx pre post msgKeys inst row :
  pushed cfg now sig tx pre post msgKeys inst row ->
  exists srcIdx dstIdx,
    indexOfKey_at msgKeys (accounts inst) 3 = Some srcIdx /\
    indexOfKey_at msgKeys (accounts inst) 6 = Some dstIdx /\
    let rawIn := - diffAmount (find_balance pre srcIdx) (find_balance post srcIdx) in
    let rawOut := diffAmount (find_balance pre dstIdx) (find_balance post dstIdx) in
    0 < rawIn /\ 0 < rawOut /\ price_reading cfg row rawIn rawOut.
Proof.
  intros []. exists p_srcIdx, p_dstIdx.
  rewrite p_find_preSrc, p_find_postSrc, p_find_preDst, p_find_postDst.
  split; [exact p_src|]. split; [exact p_dst|]. cbv zeta.
  split; [lia|]. split; [lia|].
  subst row. unfold price_reading, row_of.
  cbn [price amountQuote amountBase swappedFrom]. split; [reflexivity|].
  destruct (pk_equals (mint p_preSrc) (mintAAddress cfg));
    rewrite toFloatA_decimal, toFloatB_decimal;
    apply NumFacts.div_fin; apply to_decimal_pos; lia.
Qed.

(** C1, as the code has it. For every row that [handleTx] appends, with
    [rawIn] the amount that left the user-source account and [rawOut] the
    amount that arrived in the user-destination account (both in smallest
    units, both positive): [price] is the Banana-side amount in decimal
    (precision of mint B) divided by the Apple-side amount in decimal
    (precision of mint A), which is the row's [amountQuote / amountBase].
    It is out over in when the source mint is mint A, and in over out
    when it is not. *)
Theorem price_is_quote_per_base (cfg : Config) (connection : Connection)
    (Date_now : number) (sig : Signature) (slot : option nat) (st : State) :
  exists new,
    chartData (state_of (handleTx cfg connection Date_now sig slot st))
      = chartData st ++ new /\
    Forall (fun row =>
      exists tx inst srcIdx dstIdx,
        getParsedTransaction connection sig = Some tx /\
        In inst (swap_instructions cfg tx) /\
        let msgKeys := toPubkeyArray (accountKeys tx) in
        let pre := pre_balances tx in
        let post := post_balances tx in
        indexOfKey_at msgKeys (accounts inst) 3 = Some srcIdx /\
        indexOfKey_at msgKeys (accounts inst) 6 = Some dstIdx /\
        let rawIn := - diffAmount (find_balance pre srcIdx) (find_balance post srcIdx) in
        let rawOut := diffAmount (find_balance pre dstIdx) (find_balance post dstIdx) in
        0 < rawIn /\ 0 < rawOut /\ price_reading cfg row rawIn rawOut) new.
Proof.
  destruct (handleTx_appends cfg connection Date_now sig slot st) as (new & Hnew & Hall).
  exists new. split; [exact Hnew|].
  eapply Forall_impl; [|exact Hall].
  intros row (tx & inst & Htx & Hin & Hp).
  destruct (pushed_price Hp) as (srcIdx & dstIdx & Hs & Hd & H).
  exists tx, inst, srcIdx, dstIdx. cbv zeta in *. tauto.
Qed.

(** The sale of one Apple for two Bananas: the source mint is mint A and
    the price is out over in, 2. *)
Lemma price_is_quote_per_base_witness :
  exists row,
    chartData (state_of (handleTx Sample.cfg Sample.connection Sample.Date_now
                           "sigSellApple"%string None Sample.empty_state)) = [row] /\
    price row
      = Num.Fin (Num.to_decimal 2000000 6 / Num.to_decimal 1000000000 9) /\
    Num.equiv (price row) (Num.Fin 2).
Proof.
  destruct (price_is_quote_per_base Sample.cfg Sample.connection Sample.Date_now
              "sigSellApple"%string None Sample.empty_state) as (new & Hnew & Hall).
  vm_compute in Hnew.
  destruct new as [|row [|? ?]]; try discriminate.
  injection Hnew as Hrow.
  apply Forall_inv in Hall.
  destruct Hall as (tx & inst & srcIdx & dstIdx & Htx & Hin & H).
  vm_compute in Htx. injection Htx as Htx. subst tx.
  destruct Hin as [<- | []].
  cbv zeta in H. destruct H as (Hs & Hd & _ & _ & _ & Hprice).
  vm_compute in Hs, Hd. injection Hs as Hs. injection Hd as Hd. subst srcIdx dstIdx.
  exists row. rewrite <- Hrow in Hprice |- *.
  split; [vm_compute; reflexivity|].
  split; [exact Hprice | vm_compute; reflexivity].
Defined.

(** C1, as stated, fails when the user sells Banana. Both mints have 6
    decimals here; two Bananas buy one Apple; the row has [amountIn] 2,
    [amountOut] 1 and [price] 2, not 1/2. *)
Lemma price_not_out_over_in :
  exists row,
    chartData (state_of (handleTx Sample.cfg_same_decimals Sample.connection
                           Sample.Date_now "sigSellBanana"%string None
                           Sample.empty_state)) = [row] /\
    Num.equiv (amountIn row) (Num.Fin 2) /\
    Num.equiv (amountOut row) (Num.Fin 1) /\
    Num.equiv (price row) (Num.Fin 2) /\
    Num.equiv (Num.div (amountOut row) (amountIn row)) (Num.Fin (1 # 2)) /\
    ~ Num.equiv (price row) (Num.div (amountOut row) (amountIn row)).
Proof.
  eexists. split; [vm_compute; reflexivity|].
  repeat split; try (vm_compute; reflexivity).
  vm_compute. discriminate.
Qed.

(** ** Pool price *)

Lemma to_decimal_nonzero (x : Z) (d : nat) :
  x <> 0 -> Num.is_zero (Num.to_decimal x d) = false.
Proof.
  intros Hx. unfold Num.is_zero. destruct (Qeq_bool _ _) eqn:E; [|reflexivity].
  apply Qeq_bool_eq in E. exfalso. apply Hx.
  assert (Hp : ~ (inject_Z (10 ^ Z.of_nat d) == 0)%Q).
  { intros H. unfold Qeq in H. simpl in H. pose proof (NumFacts.pow10_pos d). lia. }
  pose proof (Qmult_div_r (inject_Z x) (inject_Z (10 ^ Z.of_nat d)) Hp) as Hm.
  fold (Num.to_decimal x d) in Hm.
  assert (Hz : (inject_Z x == 0)%Q).
  { eapply Qeq_trans; [symmetry; exact Hm|].
    eapply Qeq_trans; [apply Qmult_comp; [apply Qeq_refl | exact E]|].
    apply Qmult_0_r. }
  unfold Qeq in Hz. simpl in Hz. lia.
Qed.

Lemma pushed_pool_price cfg now sig tx pre post msgKeys inst row :
  pushed cfg now sig tx pre post msgKeys inst row ->
  exists postVA postVB,
    0 <= indexOfKey msgKeys (vaultAAddress cfg) /\
    0 <= indexOfKey msgKeys (vaultBAddress cfg) /\
    find_balance post (indexOfKey msgKeys (vaultAAddress cfg)) = Some postVA /\
    find_balance post (indexOfKey msgKeys (vaultBAddress cfg)) = Some postVB /\
    pool_price_reading cfg row postVA postVB.
Proof.
  intros []. exists p_postVA, p_postVB. repeat (split; [assumption|]).
  subst row. unfold pool_price_reading, row_of. cbn [poolPrice].
  rewrite toFloatA_decimal, toFloatB_decimal. split; [reflexivity|].
  intros Hne. unfold Num.div. now rewrite to_decimal_nonzero.
Qed.

(** C7. Every row that [handleTx] appends has for [poolPrice] the ratio
    of the two vaults' balances after the transaction, vault B's in
    decimal with the precision of mint B over vault A's in decimal with
    the precision of mint A; and an instruction whose vault accounts are
    not among the message keys, or whose vaults have no balance entry
    after the transaction, pushes no row. *)
Theorem pool_price_from_reserves (cfg : Config) (connection : Connection)
    (Date_now : number) :
  (forall sig slot st,
      exists new,
        chartData (state_of (handleTx cfg connection Date_now sig slot st))
          = chartData st ++ new /\
        Forall (fun row =>
          exists tx postVA postVB,
            getParsedTransaction connection sig = Some tx /\
            let msgKeys := toPubkeyArray (accountKeys tx) in
            find_balance (post_balances tx) (indexOfKey msgKeys (vaultAAddress cfg))
              = Some postVA /\
            find_balance (post_balances tx) (indexOfKey msgKeys (vaultBAddress cfg))
              = Some postVB /\
            pool_price_reading cfg row postVA postVB) new) /\
  (forall sig tx pre post msgKeys inst,
      indexOfKey msgKeys (vaultAAddress cfg) < 0 \/
      indexOfKey msgKeys (vaultBAddress cfg) < 0 \/
      find_balance post (indexOfKey msgKeys (vaultAAddress cfg)) = None \/
      find_balance post (indexOfKey msgKeys (vaultBAddress cfg)) = None ->
      forall row, swap_iteration cfg Date_now sig tx pre post msgKeys inst <> Push row).
Proof.
  split.
  - intros sig slot st.
    destruct (handleTx_appends cfg connection Date_now sig slot st) as (new & Hnew & Hall).
    exists new. split; [exact Hnew|].
    eapply Forall_impl; [|exact Hall].
    intros row (tx & inst & Htx & Hin & Hp).
    destruct (pushed_pool_price Hp) as (postVA & postVB & _ & _ & HA & HB & Hr).
    exists tx, postVA, postVB. cbv zeta. auto.
  - intros sig tx pre post msgKeys inst Hmiss row H.
    apply swap_iteration_push in H.
    destruct (pushed_pool_price H) as (postVA & postVB & H0A & H0B & HA & HB & _).
    destruct Hmiss as [Hm | [Hm | [Hm | Hm]]]; try lia; congruence.
Qed.

(** The sale of one Apple, read at the row it pushes: 198 Bananas and 101
    Apples are left in the vaults. Without vault B among the keys of the
    message there is no row. *)
Lemma pool_price_from_reserves_witness :
  (exists row,
      chartData (state_of (handleTx Sample.cfg Sample.connection Sample.Date_now
                             "sigSellApple"%string None Sample.empty_state)) = [row] /\
      poolPrice row
        = Num.Fin (Num.to_decimal 198000000 6 / Num.to_decimal 101000000000 9)) /\
  (forall row,
      swap_iteration Sample.cfg Sample.Date_now "sigSellApple"%string
        Sample.tx_sell_apple (pre_balances Sample.tx_sell_apple)
        (post_balances Sample.tx_sell_apple) ["UserApple"; "UserBanana"; "VaultA"]%string
        Sample.swap_apple_to_banana <> Push row).
Proof.
  destruct (pool_price_from_reserves Sample.cfg Sample.connection Sample.Date_now)
    as [Hrows Hnone].
  split.
  - destruct (Hrows "sigSellApple"%string None Sample.empty_state)
      as (new & Hnew & Hall).
    vm_compute in Hnew.
    destruct new as [|row [|? ?]]; try discriminate.
    exists row. split; [vm_compute; exact Hnew|].
    inversion Hall as [|? ? (tx & postVA & postVB & Htx & HA & HB & _ & Hr) _]; subst.
    vm_compute in Htx. inversion Htx; subst tx; clear Htx.
    vm_compute in HA, HB. inversion HA; inversion HB; subst postVA postVB.
    apply Hr. vm_compute. discriminate.
  - apply Hnone. right; left. vm_compute. reflexivity.
Defined.

(** ** Absent snapshots *)

(** C4, as the code has it. [diffAmount] counts an absent snapshot as
    zero, but [handleTx] does not reach it with one: an instruction whose
    user-source or user-destination account lacks its entry before or
    after the transaction is passed over and pushes no row. *)
Theorem absent_snapshot_skips (cfg : Config) (Date_now : number) :
  (diffAmount None None = 0 /\
   (forall aft, diffAmount None (Some aft) = amount aft) /\
   (forall bef, diffAmount (Some bef) None = - amount bef)) /\
  (forall sig tx pre post msgKeys inst srcIdx dstIdx,
      indexOfKey_at msgKeys (accounts inst) 3 = Some srcIdx ->
      indexOfKey_at msgKeys (accounts inst) 6 = Some dstIdx ->
      find_balance pre srcIdx = None \/ find_balance post srcIdx = None \/
      find_balance pre dstIdx = None \/ find_balance post dstIdx = None ->
      swap_iteration cfg Date_now sig tx pre post msgKeys inst = Continue).
Proof.
  split.
  - unfold diffAmount. repeat split; intros; lia.
  - intros sig tx pre post msgKeys inst srcIdx dstIdx Hs Hd Hmiss.
    unfold swap_iteration. rewrite Hs, Hd.
    destruct (Decoder.decodeSwapInstruction (data inst)); [|reflexivity].
    destruct ((srcIdx <? 0) || (dstIdx <? 0)); [reflexivity|].
    destruct (find_balance pre srcIdx), (find_balance post srcIdx),
             (find_balance pre dstIdx), (find_balance post dstIdx);
      try reflexivity.
    destruct Hmiss as [H | [H | [H | H]]]; discriminate.
Qed.

Lemma absent_snapshot_skips_witness :
  swap_iteration Sample.cfg Sample.Date_now "sigFresh"%string
    Sample.tx_sell_apple_fresh_account
    (pre_balances Sample.tx_sell_apple_fresh_account)
    (post_balances Sample.tx_sell_apple_fresh_account)
    (toPubkeyArray (accountKeys Sample.tx_sell_apple_fresh_account))
    Sample.swap_apple_to_banana = Continue.
Proof.
  apply (proj2 (absent_snapshot_skips Sample.cfg Sample.Date_now)) with (srcIdx := 3) (dstIdx := 6).
  - reflexivity.
  - reflexivity.
  - right; right; left. reflexivity.
Defined.

(** C4, as stated, fails on a destination account that the transaction
    creates. Counting the absent entry as zero, the deltas are those of a
    swap (-10^9 and +2 * 10^6), yet no row is pushed; the same transaction
    with an entry of amount 0 pushes one. *)
Lemma absent_snapshot_not_zero :
  let tx := Sample.tx_sell_apple_fresh_account in
  let run sig :=
    state_of (handleTx Sample.cfg Sample.connection Sample.Date_now sig None
                       Sample.empty_state) in
  find_balance (pre_balances tx) 6 = None /\
  diffAmount (find_balance (pre_balances tx) 3) (find_balance (post_balances tx) 3)
    = -1000000000 /\
  diffAmount (find_balance (pre_balances tx) 6) (find_balance (post_balances tx) 6)
    = 2000000 /\
  swap_shaped (pre_balances tx) (post_balances tx) (toPubkeyArray (accountKeys tx))
              Sample.swap_apple_to_banana /\
  chartData (run "sigFresh"%string) = [] /\
  List.length (chartData (run "sigSellApple"%string)) = 1%nat.
Proof.
  cbv zeta. repeat split; try (vm_compute; reflexivity).
  exists 3, 6. repeat split; vm_compute; reflexivity.
Qed.

(** ** The cursor *)

Section CursorFacts.

Variable cfg : Config.
Variable connection : Connection.
Variable Date_now : number.

Lemma handleTx_cursor sig slot st :
  (forall st', handleTx cfg connection Date_now sig slot st = Thrown st' ->
               lastSavedSignature st' = lastSavedSignature st) /\
  (forall st', handleTx cfg connection Date_now sig slot st = Returned st' ->
               lastSavedSignature st' =
                 if enters_loop cfg connection sig st
                 then Some sig else lastSavedSignature st).
Proof.
  unfold handleTx, enters_loop.
  destruct (seen_has sig (seen st)); cbn [negb andb].
  { split; intros st' H; inversion H; reflexivity. }
  destruct (getParsedTransaction connection sig) as [tx|].
  2:{ split; intros st' H; inversion H; reflexivity. }
  destruct (is_empty (pre_balances tx) || is_empty (post_balances tx)); cbn [negb andb].
  { split; intros st' H; inversion H; reflexivity. }
  destruct (is_empty (swap_instructions cfg tx)); cbn [negb].
  { split; intros st' H; inversion H; reflexivity. }
  destruct (swap_loop _ _ _ _ _ _ _ _ _);
    split; intros st' H; inversion H; reflexivity.
Qed.

(** The loop ends normally when no instruction lacks the account of
    position 3 or 6. *)
Lemma swap_loop_returns sig tx pre post msgKeys swaps :
  (forall inst, In inst swaps ->
                swap_iteration cfg Date_now sig tx pre post msgKeys inst <> Raise) ->
  forall chart, exists chart',
    swap_loop cfg Date_now sig tx pre post msgKeys swaps chart = Returned chart'.
Proof.
  induction swaps as [|inst rest IH]; intros Hok chart; cbn [swap_loop].
  - eauto.
  - destruct (swap_iteration cfg Date_now sig tx pre post msgKeys inst) eqn:E.
    + apply IH. intros i Hi. apply Hok. now right.
    + apply IH. intros i Hi. apply Hok. now right.
    + exfalso. apply (Hok inst); [now left | exact E].
Qed.

Lemma swap_loop_all_continue sig tx pre post msgKeys swaps :
  (forall inst, In inst swaps ->
                swap_iteration cfg Date_now sig tx pre post msgKeys inst = Continue) ->
  forall chart,
    swap_loop cfg Date_now sig tx pre post msgKeys swaps chart = Returned chart.
Proof.
  induction swaps as [|inst rest IH]; intros Hok chart; cbn [swap_loop].
  - reflexivity.
  - rewrite (Hok inst) by now left. apply IH. intros i Hi. apply Hok. now right.
Qed.

End CursorFacts.

(** C8, as the code has it. [lastSavedSignature] is assigned in the last
    statement of [handleTx] only. A call that throws leaves it as it was;
    a call that returns has set it to its signature exactly when the
    call went through the loop over the swap instructions (new signature,
    transaction found, balances on both sides, at least one swap-program
    instruction), whether the instructions pushed rows or were all
    passed over; the calls that return before the loop leave it as it
    was. Such a call does return when every swap instruction has its
    accounts 3 and 6. *)
Theorem cursor_set_after_loop (cfg : Config) (connection : Connection)
    (Date_now : number) (sig : Signature) (slot : option nat) (st : State) :
  (forall st', handleTx cfg connection Date_now sig slot st = Thrown st' ->
               lastSavedSignature st' = lastSavedSignature st) /\
  (forall st', handleTx cfg connection Date_now sig slot st = Returned st' ->
               lastSavedSignature st' =
                 if enters_loop cfg connection sig st
                 then Some sig else lastSavedSignature st) /\
  (forall tx,
      enters_loop cfg connection sig st = true ->
      getParsedTransaction connection sig = Some tx ->
      (forall inst, In inst (swap_instructions cfg tx) ->
         swap_iteration cfg Date_now sig tx (pre_balances tx) (post_balances tx)
                        (toPubkeyArray (accountKeys tx)) inst <> Raise) ->
      exists st', handleTx cfg connection Date_now sig slot st = Returned st' /\
                  lastSavedSignature st' = Some sig).
Proof.
  destruct (handleTx_cursor cfg connection Date_now sig slot st) as [Hthrown Hret].
  split; [exact Hthrown|]. split; [exact Hret|].
  intros tx Hgo Htx Hok.
  assert (exists st', handleTx cfg connection Date_now sig slot st = Returned st')
    as (st' & Hst').
  { unfold enters_loop in Hgo. rewrite Htx in Hgo.
    apply andb_prop in Hgo. destruct Hgo as [Hseen Hgo].
    apply andb_prop in Hgo. destruct Hgo as [Hbal Hswaps].
    apply negb_true_iff in Hseen, Hbal, Hswaps.
    unfold handleTx. rewrite Hseen, Htx, Hbal, Hswaps.
    destruct (swap_loop_returns cfg Date_now sig tx (pre_balances tx)
                (post_balances tx) (toPubkeyArray (accountKeys tx))
                (swap_instructions cfg tx) Hok
                (chartData (with_seen st (seen_add sig (seen st))))) as (chart' & Hc).
    rewrite Hc. eauto. }
  exists st'. split; [exact Hst'|].
  rewrite (Hret st' Hst'), Hgo. reflexivity.
Qed.

(** A swap-program instruction under another tag is passed over and the
    cursor moves to the signature. *)
Lemma cursor_set_after_loop_witness :
  exists st',
    handleTx Sample.cfg Sample.connection Sample.Date_now "sigRejected"%string None
             Sample.empty_state = Returned st' /\
    lastSavedSignature st' = Some "sigRejected"%string.
Proof.
  destruct (cursor_set_after_loop Sample.cfg Sample.connection Sample.Date_now
              "sigRejected"%string None Sample.empty_state) as (_ & _ & H).
  apply (H Sample.tx_rejected).
  - reflexivity.
  - reflexivity.
  - intros inst [<- | []]. vm_compute. discriminate.
Defined.

(** C8, as stated, fails on a transaction without any instruction of the
    swap program: [handleTx] is done with it and returns, and the cursor
    is still unset. *)
Lemma cursor_not_set_without_swap_instruction :
  exists st',
    handleTx Sample.cfg Sample.connection Sample.Date_now "sigTransfer"%string None
             Sample.empty_state = Returned st' /\
    seen st' = ["sigTransfer"%string] /\
    lastSavedSignature st' = None /\
    lastSavedSignature st' <> Some "sigTransfer"%string.
Proof.
  eexists. split; [vm_compute; reflexivity|].
  cbn. repeat split. discriminate.
Qed.

(** ** Paging through the ledger *)

Section WindowFacts.

Lemma older_than_at (b : Signature) (l1 l2 : list Signature) :
  ~ In b l1 -> older_than b (l1 ++ b :: l2) = l2.
Proof.
  induction l1 as [|x l1 IH]; intros Hb; cbn.
  - now rewrite String.eqb_refl.
  - destruct (String.eqb_spec x b) as [->|_].
    + exfalso. apply Hb. now left.
    + apply IH. intros H. apply Hb. now right.
Qed.

Lemma newer_than_absent (u : Signature) (l : list Signature) :
  ~ In u l -> newer_than u l = l.
Proof.
  induction l as [|x l IH]; intros Hu; cbn; [reflexivity|].
  destruct (String.eqb_spec x u) as [->|_].
  - exfalso. apply Hu. now left.
  - f_equal. apply IH. intros H. apply Hu. now right.
Qed.

Lemma newer_than_at (u : Signature) (l1 l2 : list Signature) :
  ~ In u l1 -> newer_than u (l1 ++ u :: l2) = l1.
Proof.
  induction l1 as [|x l1 IH]; intros Hu; cbn.
  - now rewrite String.eqb_refl.
  - destruct (String.eqb_spec x u) as [->|_].
    + exfalso. apply Hu. now left.
    + f_equal. apply IH. intros H. apply Hu. now right.
Qed.

Lemma older_than_suffix (b : Signature) (l : list Signature) :
  exists P, l = P ++ older_than b l.
Proof.
  induction l as [|x l (P & IH)]; cbn.
  - now exists [].
  - destruct (String.eqb x b).
    + now exists [x].
    + exists (x :: P). cbn. now f_equal.
Qed.

Lemma newer_than_prefix (u : Signature) (l : list Signature) :
  ~ In u (newer_than u l) /\
  (l = newer_than u l \/ exists T, l = newer_than u l ++ u :: T).
Proof.
  induction l as [|x l (Hn & IH)]; cbn.
  - split; [tauto | now left].
  - destruct (String.eqb_spec x u) as [->|Hne].
    + split; [cbn; tauto | right; now exists l].
    + split.
      * cbn. intros [H | H]; [now apply Hne | now apply Hn].
      * destruct IH as [IH | (T & IH)].
        -- left. now f_equal.
        -- right. exists T. cbn. now f_equal.
Qed.

Lemma window_framed L before until : framed L until (window L before until).
Proof.
  unfold window.
  assert (exists P X, L = P ++ X /\
            X = match before with Some b => older_than b L | None => L end)
    as (P & X & HL & HX).
  { destruct before as [b|].
    - destruct (older_than_suffix b L) as (P & HP). eauto.
    - exists [], L. auto. }
  rewrite <- HX. destruct until as [u|].
  - destruct (newer_than_prefix u X) as (Hn & [HX' | (T & HX')]).
    + exists P, []. split; [rewrite app_nil_r; congruence | auto].
    + exists P, (u :: T). split; [congruence | eauto].
  - exists P, []. split; [now rewrite app_nil_r | reflexivity].
Qed.

(** Asking again below the oldest entry [b] of a page gives what the
    page left of the window. *)
Lemma window_next L until R page0 b R' :
  NoDup L -> framed L until R -> R = page0 ++ b :: R' ->
  window L (Some b) until = R'.
Proof.
  intros Hnd (P & T & HL & Hu) HR. subst R.
  assert (HL' : L = (P ++ page0) ++ b :: (R' ++ T)).
  { rewrite HL, <- !app_assoc. reflexivity. }
  assert (Hb : ~ In b (P ++ page0)).
  { rewrite HL' in Hnd. apply NoDup_remove_2 in Hnd.
    intros H. apply Hnd. apply in_or_app. now left. }
  unfold window. rewrite HL', (@older_than_at b (P ++ page0) (R' ++ T) Hb).
  destruct until as [u|].
  - destruct Hu as (HuR & HT).
    assert (HuR' : ~ In u R').
    { intros H. apply HuR. apply in_or_app. right. now right. }
    destruct HT as [-> | (T' & ->)].
    + rewrite app_nil_r. now apply newer_than_absent.
    + now apply newer_than_at.
  - subst T. now rewrite app_nil_r.
Qed.

End WindowFacts.

Section PagesFacts.

Variable limit : nat.
Hypothesis limit_pos : (0 < limit)%nat.

Lemma pages_nil fuel : pages fuel limit [] = [].
Proof. now destruct fuel. Qed.

Lemma pages_single fuel (l : list Signature) :
  l <> [] -> (List.length l <= limit)%nat ->
  pages (S fuel) limit l = [l].
Proof.
  intros Hl Hlen. destruct l as [|x l]; [congruence|].
  cbn [pages]. rewrite firstn_all2, skipn_all2 by exact Hlen.
  now rewrite pages_nil.
Qed.

Lemma pages_permutation fuel : forall l : list Signature,
  (List.length l < fuel)%nat ->
  Permutation (flat_map (@rev Signature) (pages fuel limit l)) l.
Proof.
  induction fuel as [|fuel IH]; intros l Hlen; [lia|].
  destruct l as [|x l]; [constructor|].
  cbn [pages flat_map].
  rewrite <- (firstn_skipn limit (x :: l)) at 3.
  apply Permutation_app.
  - symmetry. apply Permutation_rev.
  - apply IH. rewrite length_skipn. cbn [List.length] in *. lia.
Qed.

End PagesFacts.

Section BackfillFacts.

Variable S : Type.
Variable handle : Signature -> option nat -> S -> outcome S.
Variable connection : Connection.
Variable limit : nat.
Hypothesis limit_pos : (0 < limit)%nat.
Hypothesis ledger_nodup : NoDup (ledger connection).

Lemma for_each_app (l1 l2 : list ConfirmedSignatureInfo) (st : S) :
  for_each handle (l1 ++ l2) st =
  match for_each handle l1 st with
  | Returned st' => for_each handle l2 st'
  | Thrown st' => Thrown st'
  end.
Proof.
  revert st. induction l1 as [|s l1 IH]; intros st; cbn; [reflexivity|].
  destruct (handle (sig_signature s) (Some (sig_slot s)) st); [apply IH | reflexivity].
Qed.

(** The loop calls the handler on the pages of the window, one page
    after the other, each page oldest entry first. *)
Lemma backfill_loop_calls (until : option Signature) :
  forall fuel before st,
    (List.length (window (rev (ledger connection)) before until) < fuel)%nat ->
    backfill_loop handle connection limit fuel until before st =
    Some (for_each handle
            (map (info connection) (flat_map (@rev Signature)
               (pages fuel limit (window (rev (ledger connection)) before until))))
            st).
Proof.
  induction fuel as [|fuel IH]; intros before st Hlen; [lia|].
  cbn [backfill_loop]. unfold getSignaturesForAddress. fold (info connection).
  set (R := window (rev (ledger connection)) before until) in *.
  destruct R as [|x R0] eqn:HR.
  - rewrite firstn_nil. reflexivity.
  - set (page := firstn limit (x :: R0)).
    assert (Hpage : page <> []).
    { unfold page. destruct limit; [lia | discriminate]. }
    destruct (exists_last Hpage) as (page0 & b & Hlast).
    assert (Hempty : is_empty (map (info connection) page) = false).
    { destruct page; [congruence | reflexivity]. }
    rewrite Hempty. cbn [pages flat_map]. fold page.
    rewrite map_app, for_each_app, <- map_rev.
    destruct (for_each handle (map (info connection) (rev page)) st) as [st'|st']; [|reflexivity].
    assert (Hhd : option_map sig_signature (hd_error (map (info connection) (rev page))) = Some b).
    { rewrite Hlast, rev_unit. reflexivity. }
    rewrite Hhd.
    assert (Hnext : window (rev (ledger connection)) (Some b) until
                    = skipn limit (x :: R0)).
    { apply window_next with (R := x :: R0) (page0 := page0).
      - apply NoDup_rev. exact ledger_nodup.
      - rewrite <- HR. apply window_framed.
      - rewrite <- (firstn_skipn limit (x :: R0)) at 1. fold page.
        rewrite Hlast, <- app_assoc. reflexivity. }
    rewrite IH; rewrite Hnext; [reflexivity|].
    rewrite length_skipn. cbn [List.length] in *. lia.
Qed.

End BackfillFacts.

Lemma for_each_record (l : list ConfirmedSignatureInfo) (visited : list Signature) :
  for_each record_visit l visited = Returned (visited ++ map sig_signature l).
Proof.
  revert visited. induction l as [|s l IH]; intros visited; cbn.
  - now rewrite app_nil_r.
  - rewrite IH, <- app_assoc. reflexivity.
Qed.

Lemma window_after_cursor (older newer : list Signature) (Tk : Signature) :
  NoDup (older ++ Tk :: newer) ->
  window (rev (older ++ Tk :: newer)) None (Some Tk) = rev newer.
Proof.
  intros Hnd. unfold window.
  rewrite rev_app_distr. cbn [rev]. rewrite <- app_assoc. cbn [app].
  apply newer_than_at.
  apply NoDup_remove_2 in Hnd. intros H. apply Hnd.
  apply in_or_app. right. now apply in_rev.
Qed.

(** C2, as the code has it. With the ledger [T1..Tn] oldest first and
    without repetition, and the cursor at [Tk], [backfill(Tk)] ends and
    has called [handleTx] on the signatures [visits], in that order (a
    call that throws ends the pass there): [visits] is [Tk+1..Tn] cut from
    the newest end into pages of 1000, the newest page first and each
    page oldest first. So every one of [Tk+1..Tn] is in [visits] once;
    the order is increasing inside a page; and it is increasing over the
    whole pass when at most 1000 signatures follow the cursor. *)
Theorem backfill_pages (cfg : Config) (connection : Connection) (Date_now : number)
    (older newer : list Signature) (Tk : Signature) (fuel : nat) (st : State) :
  ledger connection = older ++ Tk :: newer ->
  NoDup (ledger connection) ->
  (List.length newer < fuel)%nat ->
  let visits := flat_map (@rev Signature) (pages fuel page_limit (rev newer)) in
  backfill cfg connection Date_now fuel (Some Tk) st
    = Some (for_each (handleTx cfg connection Date_now)
                     (map (info connection) visits) st) /\
  backfill_visits connection page_limit fuel (Some Tk) = Some (Returned visits) /\
  Permutation visits newer /\
  NoDup visits /\
  ((List.length newer <= page_limit)%nat -> visits = newer).
Proof.
  intros Hledger Hnd Hfuel visits.
  assert (Hpos : (0 < page_limit)%nat) by (unfold page_limit; lia).
  assert (Hwin : window (rev (ledger connection)) None (Some Tk) = rev newer).
  { rewrite Hledger. apply window_after_cursor. now rewrite <- Hledger. }
  assert (Hlen : (List.length (window (rev (ledger connection)) None (Some Tk)) < fuel)%nat).
  { rewrite Hwin, length_rev. exact Hfuel. }
  assert (Hperm : Permutation visits newer).
  { unfold visits. etransitivity.
    - apply pages_permutation; [exact Hpos | now rewrite length_rev].
    - symmetry. apply Permutation_rev. }
  split; [|split; [|split; [|split]]].
  - unfold backfill. rewrite backfill_loop_calls by assumption.
    rewrite Hwin. reflexivity.
  - unfold backfill_visits. rewrite backfill_loop_calls by assumption.
    rewrite Hwin, for_each_record. cbn [app].
    rewrite map_map. cbn. now rewrite map_id.
  - exact Hperm.
  - apply (Permutation_NoDup (l := newer)); [now symmetry|].
    rewrite Hledger in Hnd. apply NoDup_app_remove_l in Hnd.
    now inversion Hnd.
  - intros Hshort. unfold visits.
    destruct newer as [|x newer'] eqn:Hn.
    + cbn. now rewrite pages_nil.
    + destruct fuel as [|fuel']; [cbn in Hfuel; lia|].
      rewrite pages_single.
      * cbn [flat_map]. now rewrite app_nil_r, rev_involutive.
      * intros H. apply (f_equal (@List.length _)) in H.
        rewrite length_rev in H. discriminate.
      * now rewrite length_rev.
Qed.

(** C2, as stated, fails as soon as more than 1000 signatures follow the
    cursor. With the ledger [T 1 .. T 1002] and the cursor at [T 1], the
    first page holds [T 3 .. T 1002] and the second [T 2]: the oldest
    transaction of the gap is handled last. The set [seen], which keeps
    the order of insertion, shows the same on [handleTx] itself. *)
Lemma backfill_not_increasing_across_pages :
  let visits := map LongLedger.T (seq 3 1000) ++ [LongLedger.T 2] in
  backfill_visits LongLedger.connection page_limit 3 (Some (LongLedger.T 1))
    = Some (Returned visits) /\
  option_map (fun o => seen (state_of o))
    (backfill Sample.cfg LongLedger.connection Sample.Date_now 3
              (Some (LongLedger.T 1)) Sample.empty_state)
    = Some visits /\
  visits <> map LongLedger.T (seq 2 1001).
Proof.
  cbv zeta. split; [|split].
  - vm_compute. reflexivity.
  - vm_compute. reflexivity.
  - intros H. apply (f_equal (@hd_error Signature)) in H.
    vm_compute in H. discriminate.
Qed.

Lemma backfill_pages_witness :
  backfill_visits Sample.connection page_limit 4 (Some "sigFresh"%string)
    = Some (Returned ["sigSellBanana"; "sigRejected"; "sigTransfer"]%string).
Proof.
  assert (Hnd : NoDup (ledger Sample.connection)).
  { cbn. repeat constructor; cbn; intuition discriminate. }
  assert (Hfuel : (List.length ["sigSellBanana"; "sigRejected"; "sigTransfer"]%string < 4)%nat).
  { cbn. lia. }
  pose proof (@backfill_pages Sample.cfg Sample.connection Sample.Date_now
                ["sigSellApple"%string]
                ["sigSellBanana"; "sigRejected"; "sigTransfer"]%string
                "sigFresh"%string 4 Sample.empty_state eq_refl Hnd Hfuel) as H.
  cbv zeta in H. destruct H as (_ & Hvisits & _ & _ & Hall).
  rewrite Hall in Hvisits; [exact Hvisits|].
  unfold page_limit. cbn. lia.
Defined.

(** ** One pipeline for the live feed and for backfill *)

(** C9. The callback of the live subscription is [handleTx], the very
    function that [backfill] calls on every signature of a page, and
    [handleTx] does not look at the slot it is given. So, from the same
    state, a pass of [backfill] over a ledger that holds one signature
    after the cursor ends in the outcome (state, rows pushed, and whether
    it threw) of the callback delivering that signature. *)
Theorem live_and_backfill_agree (cfg : Config) (connection : Connection)
    (Date_now : number) :
  (forall sig ctx_slot st,
      onLogs_callback cfg connection Date_now sig ctx_slot st
        = handleTx cfg connection Date_now sig (Some ctx_slot) st) /\
  (forall sig slot slot' st,
      handleTx cfg connection Date_now sig slot st
        = handleTx cfg connection Date_now sig slot' st) /\
  (forall older Tk sig fuel ctx_slot st,
      ledger connection = older ++ [Tk; sig] ->
      NoDup (ledger connection) ->
      (1 < fuel)%nat ->
      backfill cfg connection Date_now fuel (Some Tk) st
        = Some (onLogs_callback cfg connection Date_now sig ctx_slot st)).
Proof.
  split; [reflexivity|]. split; [reflexivity|].
  intros older Tk sig fuel ctx_slot st Hledger Hnd Hfuel.
  assert (Hpos : (0 < page_limit)%nat) by (unfold page_limit; lia).
  assert (Hwin : window (rev (ledger connection)) None (Some Tk) = [sig]).
  { rewrite Hledger. rewrite (@window_after_cursor older [sig] Tk); [reflexivity|].
    now rewrite <- Hledger. }
  unfold backfill. rewrite backfill_loop_calls; try assumption.
  2:{ rewrite Hwin. cbn [List.length]. lia. }
  rewrite Hwin. destruct fuel as [|fuel']; [lia|].
  rewrite pages_single; [|discriminate|unfold page_limit; cbn; lia].
  cbn [flat_map rev app map for_each info sig_signature sig_slot].
  unfold onLogs_callback.
  destruct (handleTx cfg connection Date_now sig (Some (slotOf connection sig)) st) eqn:E;
    unfold handleTx in *; rewrite E; reflexivity.
Qed.

Lemma live_and_backfill_agree_witness :
  backfill Sample.cfg Sample.connection Sample.Date_now 2
           (Some "sigRejected"%string) Sample.empty_state
  = Some (onLogs_callback Sample.cfg Sample.connection Sample.Date_now
                          "sigTransfer"%string 7 Sample.empty_state).
Proof.
  apply (proj2 (proj2 (live_and_backfill_agree Sample.cfg Sample.connection
                                               Sample.Date_now)))
    with (older := ["sigSellApple"; "sigFresh"; "sigSellBanana"]%string).
  - reflexivity.
  - cbn. repeat constructor; cbn; intuition discriminate.
  - lia.
Defined.

(** ** The set of seen signatures *)

Section SeenFacts.

Lemma seen_delete_head (x : Signature) (rest : list Signature) :
  ~ In x rest -> seen_delete x (x :: rest) = rest.
Proof.
  intros Hx. unfold seen_delete. cbn [filter].
  rewrite String.eqb_refl. cbn [negb].
  induction rest as [|y rest IH]; [reflexivity|].
  cbn [filter]. destruct (String.eqb_spec x y) as [->|_].
  - exfalso. apply Hx. now left.
  - cbn [negb]. f_equal. apply IH. intros H. apply Hx. now right.
Qed.

Lemma trim_loop_self (s : list Signature) :
  NoDup s -> trim_loop s s = skipn (Z.to_nat (seen_size s - 5000)) s.
Proof.
  induction s as [|x rest IH]; intros Hnd; [reflexivity|].
  cbn [trim_loop]. inversion Hnd as [|? ? Hx Hrest]; subst.
  destruct (Z.leb_spec (seen_size (x :: rest)) 5000) as [Hle|Hgt].
  - replace (Z.to_nat (seen_size (x :: rest) - 5000)) with 0%nat by lia.
    reflexivity.
  - rewrite (@seen_delete_head x rest Hx), (IH Hrest).
    unfold seen_size in *. cbn [List.length] in *.
    replace (Z.to_nat (Z.of_nat (S (List.length rest)) - 5000))
      with (S (Z.to_nat (Z.of_nat (List.length rest) - 5000))) by lia.
    reflexivity.
Qed.

(** Trimming keeps the newest entries: all of them up to 10000, the last
    5000 beyond. *)
Lemma trim_seen_spec (s : list Signature) :
  NoDup s ->
  trim_seen s = if seen_size s >? 10000
                then skipn (Z.to_nat (seen_size s - 5000)) s else s.
Proof.
  intros Hnd. unfold trim_seen. destruct (seen_size s >? 10000); [|reflexivity].
  now apply trim_loop_self.
Qed.

Lemma skipn_suffix {A : Type} (n : nat) (l : list A) :
  exists P, l = P ++ skipn n l.
Proof. exists (firstn n l). now rewrite firstn_skipn. Qed.

Lemma trim_seen_nodup (s : list Signature) : NoDup s -> NoDup (trim_seen s).
Proof.
  intros Hnd. rewrite (trim_seen_spec Hnd).
  destruct (seen_size s >? 10000); [|exact Hnd].
  destruct (skipn_suffix (Z.to_nat (seen_size s - 5000)) s) as (P & HP).
  rewrite HP in Hnd. now apply NoDup_app_remove_l in Hnd.
Qed.

Lemma trim_seen_keeps_last (s : list Signature) (sig : Signature) :
  NoDup (s ++ [sig]) -> In sig (trim_seen (s ++ [sig])).
Proof.
  intros Hnd. rewrite (trim_seen_spec Hnd).
  destruct (seen_size (s ++ [sig]) >? 10000) eqn:Hbig.
  - unfold seen_size in *. rewrite length_app in *. cbn [List.length] in *.
    rewrite skipn_app.
    apply in_or_app. right.
    replace (Z.to_nat (Z.of_nat (List.length s + 1) - 5000) - List.length s)%nat
      with 0%nat by lia.
    now left.
  - apply in_or_app. right. now left.
Qed.

Lemma seen_add_nodup (sig : Signature) (s : list Signature) :
  NoDup s -> NoDup (seen_add sig s).
Proof.
  intros Hnd. unfold seen_add. destruct (seen_has sig s) eqn:H; [exact Hnd|].
  apply NoDup_app; [exact Hnd | repeat constructor; intros [] |].
  intros x Hx [<- | []].
  apply seen_has_In in Hx. congruence.
Qed.

Lemma seen_add_In (sig : Signature) (s : list Signature) : In sig (seen_add sig s).
Proof.
  unfold seen_add. destruct (seen_has sig s) eqn:H.
  - now apply seen_has_In.
  - apply in_or_app. right. now left.
Qed.

End SeenFacts.

(** ** The sink *)

Section SinkFacts.

Variable cfg : Config.
Variable connection : Connection.
Variable Date_now : number.

Let handle := handleTx cfg connection Date_now.

Lemma handleTx_frame sig slot st :
  db (state_of (handle sig slot st)) = db st /\
  lastFlushed (state_of (handle sig slot st)) = lastFlushed st.
Proof.
  unfold handle, handleTx.
  destruct (seen_has sig (seen st)); [split; reflexivity|].
  destruct (getParsedTransaction connection sig) as [tx|]; [|split; reflexivity].
  destruct (is_empty (pre_balances tx) || is_empty (post_balances tx));
    [split; reflexivity|].
  destruct (is_empty (swap_instructions cfg tx)); [split; reflexivity|].
  destruct (swap_loop _ _ _ _ _ _ _ _ _); split; reflexivity.
Qed.

Lemma handleTx_seen_after sig slot st :
  NoDup (seen st) ->
  NoDup (seen (state_of (handle sig slot st))) /\
  In sig (seen (state_of (handle sig slot st))).
Proof.
  intros Hnd. unfold handle, handleTx.
  destruct (seen_has sig (seen st)) eqn:Hseen.
  { split; [exact Hnd | now apply seen_has_In]. }
  pose proof (@seen_add_nodup sig (seen st) Hnd) as Hnd'.
  pose proof (seen_add_In sig (seen st)) as Hin'.
  destruct (getParsedTransaction connection sig) as [tx|]; [|split; assumption].
  destruct (is_empty (pre_balances tx) || is_empty (post_balances tx));
    [split; assumption|].
  destruct (is_empty (swap_instructions cfg tx)); [split; assumption|].
  destruct (swap_loop _ _ _ _ _ _ _ _ _); cbn [state_of seen with_seen];
    [|split; assumption].
  split; [now apply trim_seen_nodup|].
  unfold seen_add in *. rewrite Hseen in *. now apply trim_seen_keeps_last.
Qed.

Lemma insert_or_ignore_keeps rows c :
  NoDup (map signature rows) ->
  NoDup (map signature (insert_or_ignore rows c)) /\
  In (signature c) (map signature (insert_or_ignore rows c)) /\
  (forall s, In s (map signature rows) ->
             In s (map signature (insert_or_ignore rows c))).
Proof.
  intros Hnd. unfold insert_or_ignore.
  destruct (existsb _ rows) eqn:E.
  - split; [exact Hnd|]. split; [|auto].
    apply existsb_exists in E. destruct E as (r & Hr & Heq).
    apply String.eqb_eq in Heq. rewrite <- Heq. now apply in_map.
  - rewrite map_app. cbn [map]. split; [|split].
    + apply NoDup_app; [exact Hnd | repeat constructor; intros [] |].
      intros s Hs [<- | []].
      apply in_map_iff in Hs. destruct Hs as (r & Heq & Hr).
      assert (existsb (fun r0 => String.eqb (signature r0) (signature c)) rows = true).
      { apply existsb_exists. exists r. split; [exact Hr | now apply String.eqb_eq]. }
      congruence.
    + apply in_or_app. right. now left.
    + intros s Hs. apply in_or_app. now left.
Qed.

Lemma flush_rows_keep (cs : list SwapData) : forall rows,
  NoDup (map signature rows) ->
  NoDup (map signature (fold_left insert_or_ignore cs rows)) /\
  Forall (fun c => In (signature c)
                      (map signature (fold_left insert_or_ignore cs rows))) cs /\
  (forall s, In s (map signature rows) ->
             In s (map signature (fold_left insert_or_ignore cs rows))).
Proof.
  induction cs as [|c cs IH]; intros rows Hnd; cbn [fold_left].
  - split; [exact Hnd|]. split; [constructor | auto].
  - destruct (@insert_or_ignore_keeps rows c Hnd) as (Hnd1 & Hc & Hmono).
    destruct (IH _ Hnd1) as (Hnd2 & Hall & Hmono2).
    split; [exact Hnd2|]. split; [|auto].
    constructor; [now apply Hmono2 | exact Hall].
Qed.

(** A flush leaves the table with one row per signature at most and with
    a row for every entry of [chartData]. *)
Lemma flushToDB_ok st :
  sink_ok st ->
  sink_ok (flushToDB st) /\
  Forall (fun c => In (signature c) (map signature (stored (flushToDB st))))
         (chartData st).
Proof.
  intros (rows & Hdb & Hnd & Hseen & Hle & Hflushed).
  unfold flushToDB, stored. rewrite Hdb.
  destruct (Nat.eqb_spec (List.length (chartData st)) (lastFlushed st)) as [Heq|Hne].
  - split.
    + exists rows. auto.
    + rewrite Hdb. rewrite <- Heq, firstn_all in Hflushed. exact Hflushed.
  - destruct (@flush_rows_keep (skipn (lastFlushed st) (chartData st)) rows Hnd)
      as (Hnd' & Hnew & Hmono).
    set (rows' := fold_left insert_or_ignore
                    (skipn (lastFlushed st) (chartData st)) rows) in *.
    assert (Hall : Forall (fun c => In (signature c) (map signature rows'))
                          (chartData st)).
    { rewrite <- (firstn_skipn (lastFlushed st) (chartData st)).
      apply Forall_app. split; [|exact Hnew].
      eapply Forall_impl; [|exact Hflushed]. intros c Hc. now apply Hmono. }
    split.
    + eexists. cbn [db seen chartData lastFlushed].
      split; [reflexivity|]. split; [exact Hnd'|]. split; [exact Hseen|].
      split; [lia|]. now rewrite firstn_all.
    + cbn [db]. exact Hall.
Qed.

Lemma handleTx_ok sig slot st :
  sink_ok st -> sink_ok (state_of (handle sig slot st)).
Proof.
  intros (rows & Hdb & Hnd & Hseen & Hle & Hflushed).
  destruct (handleTx_frame sig slot st) as [Hdb' Hfl'].
  destruct (handleTx_appends cfg connection Date_now sig slot st) as (new & Hnew & _).
  destruct (@handleTx_seen_after sig slot st Hseen) as [Hseen' _].
  fold handle in Hnew.
  exists rows. rewrite Hdb', Hfl', Hnew.
  split; [exact Hdb|]. split; [exact Hnd|]. split; [exact Hseen'|].
  split; [rewrite length_app; lia|].
  rewrite firstn_app.
  replace (lastFlushed st - List.length (chartData st))%nat with 0%nat by lia.
  cbn [firstn]. now rewrite app_nil_r.
Qed.

Lemma run_ok ops : forall st,
  sink_ok st -> sink_ok (run cfg connection Date_now ops st).
Proof.
  induction ops as [|o ops IH]; intros st Hok; [exact Hok|].
  cbn [run fold_left]. apply IH. destruct o as [sig slot|]; cbn [step].
  - now apply handleTx_ok.
  - now apply flushToDB_ok.
Qed.

End SinkFacts.

Lemma rows_with_absent sig rows :
  ~ In sig (map signature rows) -> rows_with sig rows = [].
Proof.
  induction rows as [|r rows IH]; intros Hno; [reflexivity|].
  cbn [rows_with filter]. destruct (String.eqb_spec (signature r) sig) as [E|_].
  - exfalso. apply Hno. cbn. now left.
  - apply IH. intros H. apply Hno. cbn. now right.
Qed.

(** A key without repetition selects one row at most, and one when it is
    there. *)
Lemma rows_with_unique sig rows :
  NoDup (map signature rows) ->
  (List.length (rows_with sig rows) <= 1)%nat /\
  (In sig (map signature rows) -> List.length (rows_with sig rows) = 1%nat).
Proof.
  induction rows as [|r rows IH]; intros Hnd.
  - cbn. split; [lia | tauto].
  - cbn [map] in Hnd. inversion Hnd as [|? ? Hr Hrest]; subst.
    cbn [rows_with filter]. fold (rows_with sig rows).
    destruct (String.eqb_spec (signature r) sig) as [E|Hne].
    + subst sig. rewrite (@rows_with_absent (signature r) rows Hr). cbn. split; [lia | auto].
    + destruct (IH Hrest) as [Hle Hone]. split; [exact Hle|].
      cbn [map]. intros [H | H]; [congruence | auto].
Qed.

(** C3, as the code has it. From a state in which the table has one row
    per signature at most, and after any sequence of deliveries and
    flushes (evictions from [seen] included): the table still has one
    row per signature at most; right after a flush it has exactly one
    for every signature that has an entry in [chartData]; and delivering
    a signature that is in [seen] - as every signature is right after
    its own delivery - changes nothing, neither [chartData] nor the
    table. *)
Theorem one_row_per_signature (cfg : Config) (connection : Connection)
    (Date_now : number) (ops : list op) (st0 : State) :
  sink_ok st0 ->
  let st := run cfg connection Date_now ops st0 in
  (forall sig, (List.length (rows_with sig (stored st)) <= 1)%nat) /\
  (forall sig, In sig (map signature (chartData st)) ->
               List.length (rows_with sig (stored (flushToDB st))) = 1%nat) /\
  (forall sig slot, In sig (seen st) ->
                    handleTx cfg connection Date_now sig slot st = Returned st) /\
  (forall sig slot slot',
      let st1 := state_of (handleTx cfg connection Date_now sig slot st) in
      handleTx cfg connection Date_now sig slot' st1 = Returned st1).
Proof.
  intros Hok0 st.
  assert (Hok : sink_ok st) by now apply run_ok.
  split; [|split; [|split]].
  - intros sig. destruct Hok as (rows & Hdb & Hnd & _).
    unfold stored. rewrite Hdb. now apply rows_with_unique.
  - intros sig Hin.
    destruct (flushToDB_ok Hok) as ((rows & Hdb & Hnd & _) & Hall).
    unfold stored in *. rewrite Hdb in *.
    apply rows_with_unique; [exact Hnd|].
    apply in_map_iff in Hin. destruct Hin as (c & <- & Hc).
    rewrite Forall_forall in Hall. now apply Hall.
  - intros sig slot Hin. apply handleTx_seen. now apply seen_has_In.
  - intros sig slot slot' st1. apply handleTx_seen. apply seen_has_In.
    destruct Hok as (_ & _ & _ & Hseen & _).
    now apply handleTx_seen_after.
Qed.

Lemma one_row_per_signature_witness :
  let st := run Sample.cfg Sample.connection Sample.Date_now
                [Deliver "sigSellApple"%string None; Flush;
                 Deliver "sigSellApple"%string (Some 3%nat); Flush]
                Sample.empty_state in
  List.length (rows_with "sigSellApple"%string (stored (flushToDB st))) = 1%nat.
Proof.
  assert (Hok : sink_ok Sample.empty_state).
  { exists []. cbn. repeat split; constructor. }
  cbv zeta.
  apply (proj1 (proj2 (@one_row_per_signature Sample.cfg Sample.connection
                         Sample.Date_now
                         [Deliver "sigSellApple"%string None; Flush;
                          Deliver "sigSellApple"%string (Some 3%nat); Flush]
                         Sample.empty_state Hok))).
  vm_compute. left. reflexivity.
Defined.

(** ** A second entry after eviction *)

Section EvictionFacts.

Let handle := handleTx Sample.cfg Eviction.connection Sample.Date_now.
Let go := run Sample.cfg Eviction.connection Sample.Date_now.

Lemma T_injective (n m : nat) : LongLedger.T n = LongLedger.T m -> n = m.
Proof.
  unfold LongLedger.T. intros H. injection H as H.
  apply (f_equal NilEmpty.uint_of_string) in H.
  rewrite !NilEmpty.usu in H. injection H as H.
  apply (f_equal Nat.of_uint) in H.
  now rewrite !DecimalNat.Unsigned.of_to in H.
Qed.

Lemma T_not_X (n : nat) : LongLedger.T n <> Eviction.X.
Proof. unfold LongLedger.T, Eviction.X. discriminate. Qed.

Lemma others_nodup (n : nat) : NoDup (Eviction.X :: Eviction.others n).
Proof.
  constructor.
  - unfold Eviction.others. rewrite in_map_iff. intros (k & Hk & _).
    now apply (@T_not_X k).
  - unfold Eviction.others. apply Injective_map_NoDup.
    + intros a b. apply T_injective.
    + apply seq_NoDup.
Qed.

(** The loop pushes the same rows whatever [chartData] holds already. *)
Lemma swap_loop_chart cfg now sig tx pre post msgKeys swaps : forall chart,
  swap_loop cfg now sig tx pre post msgKeys swaps chart =
  match swap_loop cfg now sig tx pre post msgKeys swaps [] with
  | Returned new => Returned (chart ++ new)
  | Thrown new => Thrown (chart ++ new)
  end.
Proof.
  induction swaps as [|inst rest IH]; intros chart; cbn [swap_loop].
  - now rewrite app_nil_r.
  - destruct (swap_iteration cfg now sig tx pre post msgKeys inst) as [|row|].
    + apply IH.
    + rewrite (IH (chart ++ [row])), (IH ([] ++ [row])).
      destruct (swap_loop cfg now sig tx pre post msgKeys rest []);
        now rewrite <- app_assoc.
    + now rewrite app_nil_r.
Qed.

Lemma handleTx_chart_unseen cfg connection now sig slot slot' st st0 :
  seen_has sig (seen st) = false ->
  seen_has sig (seen st0) = false ->
  chartData st0 = [] ->
  chartData (state_of (handleTx cfg connection now sig slot st)) =
  chartData st ++ chartData (state_of (handleTx cfg connection now sig slot' st0)).
Proof.
  intros Hs Hs0 Hc0. unfold handleTx. rewrite Hs, Hs0.
  destruct (getParsedTransaction connection sig) as [tx|];
    [|cbn; now rewrite Hc0, app_nil_r].
  destruct (is_empty (pre_balances tx) || is_empty (post_balances tx));
    [cbn; now rewrite Hc0, app_nil_r|].
  destruct (is_empty (swap_instructions cfg tx));
    [cbn; now rewrite Hc0, app_nil_r|].
  cbn [with_seen chartData]. rewrite Hc0.
  rewrite (swap_loop_chart cfg now sig tx (pre_balances tx) (post_balances tx)
             (toPubkeyArray (accountKeys tx)) (swap_instructions cfg tx) (chartData st)).
  destruct (swap_loop _ _ _ _ _ _ _ _ []); reflexivity.
Qed.

(** A signature other than [X] goes through the loop, pushes nothing and
    is added to [seen]. *)
Lemma other_delivery sig slot st :
  sig <> Eviction.X ->
  seen_has sig (seen st) = false ->
  state_of (handle sig slot st) =
  {| seen := trim_seen (seen st ++ [sig]);
     chartData := chartData st;
     lastSavedSignature := Some sig;
     db := db st;
     lastFlushed := lastFlushed st |}.
Proof.
  intros Hne Hseen. unfold handle, handleTx. rewrite Hseen.
  assert (Htx : getParsedTransaction Eviction.connection sig = Some Sample.tx_rejected).
  { cbn. destruct (String.eqb_spec sig Eviction.X); [contradiction | reflexivity]. }
  rewrite Htx.
  change (is_empty (pre_balances Sample.tx_rejected)
          || is_empty (post_balances Sample.tx_rejected)) with false.
  change (swap_instructions Sample.cfg Sample.tx_rejected) with [Sample.not_a_swap].
  cbn [is_empty swap_loop]. unfold swap_iteration.
  change (Decoder.decodeSwapInstruction (data Sample.not_a_swap)) with (@None Decoder.DecodedSwap).
  cbn [state_of with_seen seen chartData lastSavedSignature db lastFlushed].
  unfold seen_add. rewrite Hseen. reflexivity.
Qed.

(** As long as [seen] stays within 10000 entries nothing leaves it. *)
Lemma others_fill_seen (sigs : list Signature) : forall st,
  Forall (fun sig => sig <> Eviction.X) sigs ->
  NoDup (seen st ++ sigs) ->
  seen_size (seen st) + Z.of_nat (List.length sigs) <= 10000 ->
  let st' := go (deliver_all sigs) st in
  seen st' = seen st ++ sigs /\ chartData st' = chartData st /\
  db st' = db st /\ lastFlushed st' = lastFlushed st.
Proof.
  induction sigs as [|sig sigs IH]; intros st Hne Hnd Hsize; cbv zeta.
  - cbn. now rewrite app_nil_r.
  - inversion Hne as [|? ? Hsig Hrest]; subst.
    assert (Hseen : seen_has sig (seen st) = false).
    { destruct (seen_has sig (seen st)) eqn:E; [|reflexivity].
      apply seen_has_In in E. apply NoDup_remove_2 in Hnd.
      exfalso. apply Hnd. apply in_or_app. now left. }
    unfold go, deliver_all. cbn [map run fold_left step].
    fold handle. rewrite (@other_delivery sig None st Hsig Hseen).
    assert (Htrim : trim_seen (seen st ++ [sig]) = seen st ++ [sig]).
    { unfold trim_seen. unfold seen_size in *. rewrite length_app.
      cbn [List.length] in *.
      destruct (Z.gtb_spec (Z.of_nat (List.length (seen st) + 1)) 10000); [lia | reflexivity]. }
    rewrite Htrim.
    match goal with |- context [fold_left _ _ ?s] => set (st1 := s) end.
    assert (Hnd1 : NoDup (seen st1 ++ sigs)).
    { cbn [st1 seen]. rewrite <- app_assoc. exact Hnd. }
    assert (Hsize1 : seen_size (seen st1) + Z.of_nat (List.length sigs) <= 10000).
    { cbn [st1 seen]. unfold seen_size in *. rewrite length_app.
      cbn [List.length] in *. lia. }
    destruct (IH st1 Hrest Hnd1 Hsize1) as (H1 & H2 & H3 & H4).
    unfold go, deliver_all, run in H1, H2, H3, H4.
    rewrite H1, H2, H3, H4. cbn [st1 seen chartData db lastFlushed].
    rewrite <- app_assoc. auto.
Qed.

End EvictionFacts.


Lemma others_snoc (n : nat) :
  Eviction.others (S n) = Eviction.others n ++ [LongLedger.T (S n)].
Proof. unfold Eviction.others. now rewrite seq_S, map_app. Qed.

Lemma others_length (n : nat) : List.length (Eviction.others n) = n.
Proof. unfold Eviction.others. now rewrite length_map, length_seq. Qed.

Lemma others_not_X (n : nat) : Forall (fun sig => sig <> Eviction.X) (Eviction.others n).
Proof.
  unfold Eviction.others. apply Forall_forall. intros sig Hin.
  apply in_map_iff in Hin. destruct Hin as (k & <- & _). apply T_not_X.
Qed.

(** The oldest entry leaves a set that has grown beyond 10000. *)
Lemma oldest_evicted (x : Signature) (rest : list Signature) :
  NoDup (x :: rest) -> 10000 < seen_size (x :: rest) ->
  seen_has x (trim_seen (x :: rest)) = false.
Proof.
  intros Hnd Hsize. rewrite (@trim_seen_spec (x :: rest) Hnd).
  destruct (Z.gtb_spec (seen_size (x :: rest)) 10000) as [_|Hno]; [|lia].
  destruct (Z.to_nat (seen_size (x :: rest) - 5000)) as [|k] eqn:Hk; [lia|].
  cbn [skipn].
  destruct (seen_has x (skipn k rest)) eqn:E; [|reflexivity].
  apply seen_has_In in E. exfalso.
  destruct (skipn_suffix k rest) as (P & HP).
  apply NoDup_cons_iff in Hnd. destruct Hnd as [Hx _]. apply Hx.
  rewrite HP. apply in_or_app. now right.
Qed.

(** The state before [X] comes back: [X] has left [seen], its rows are in
    [chartData], nothing has been flushed. *)
Lemma state_before_return (n : nat) :
  Z.of_nat n = 9999 ->
  let st := run Sample.cfg Eviction.connection Sample.Date_now
                (Deliver Eviction.X None :: deliver_all (Eviction.others (S n)))
                Sample.empty_state in
  seen_has Eviction.X (seen st) = false /\
  chartData st = Eviction.pushed_rows /\
  db st = Some [] /\ lastFlushed st = 0%nat.
Proof.
  intros Hn. cbv zeta. unfold run. cbn [fold_left step].
  fold Eviction.first_state.
  rewrite others_snoc. unfold deliver_all. rewrite map_app, fold_left_app.
  cbn [map fold_left step].
  pose proof (others_nodup (S n)) as Hnd. rewrite others_snoc in Hnd.
  assert (Hseen1 : seen Eviction.first_state = [Eviction.X]) by reflexivity.
  destruct (@others_fill_seen (Eviction.others n) Eviction.first_state)
    as (Hs & Hc & Hd & Hf).
  { apply others_not_X. }
  { rewrite Hseen1. rewrite app_comm_cons in Hnd.
    now apply NoDup_app_remove_r in Hnd. }
  { rewrite Hseen1. unfold seen_size. cbn [List.length]. rewrite others_length. lia. }
  unfold run, deliver_all in Hs, Hc, Hd, Hf.
  match goal with |- context [handleTx _ _ _ _ _ ?s] => set (st2 := s) in * end.
  rewrite Hseen1 in Hs. cbn [app] in Hs.
  assert (Hfresh : seen_has (LongLedger.T (S n)) (seen st2) = false).
  { destruct (seen_has _ (seen st2)) eqn:E; [|reflexivity].
    apply seen_has_In in E. rewrite Hs in E.
    rewrite app_comm_cons in Hnd.
    apply NoDup_remove_2 in Hnd. rewrite app_nil_r in Hnd. contradiction. }
  rewrite (@other_delivery (LongLedger.T (S n)) None st2 (@T_not_X (S n)) Hfresh).
  cbn [seen chartData db lastFlushed]. rewrite Hs, Hc, Hd, Hf.
  split; [|split; [reflexivity | split; reflexivity]].
  rewrite <- app_comm_cons. apply oldest_evicted; [exact Hnd|].
  unfold seen_size. cbn [List.length]. rewrite length_app, others_length.
  cbn [List.length]. lia.
Qed.

Lemma second_entry_when_back (n : nat) :
  Z.of_nat n = 9999 ->
  let st := run Sample.cfg Eviction.connection Sample.Date_now
                (Eviction.deliveries_upto n) Sample.empty_state in
  List.length (rows_with Eviction.X (chartData st)) = 2%nat /\
  List.length (rows_with Eviction.X (stored (flushToDB st))) = 1%nat.
Proof.
  intros Hn. cbv zeta. unfold Eviction.deliveries_upto.
  fold (deliver_all (Eviction.others (S n))).
  rewrite app_comm_cons. unfold run. rewrite fold_left_app.
  destruct (state_before_return n Hn) as (Hseen & Hchart & Hdb & Hfl).
  unfold run in Hseen, Hchart, Hdb, Hfl.
  match goal with |- context [fold_left ?f [Deliver Eviction.X None] ?s] =>
    set (st3 := s) in * end.
  cbn [fold_left step].
  set (st4 := state_of (handleTx Sample.cfg Eviction.connection Sample.Date_now
                                 Eviction.X None st3)).
  assert (Hchart4 : chartData st4 = Eviction.pushed_rows ++ Eviction.pushed_rows).
  { unfold st4.
    rewrite (@handleTx_chart_unseen Sample.cfg Eviction.connection Sample.Date_now
               Eviction.X None None st3 Sample.empty_state Hseen eq_refl eq_refl).
    rewrite Hchart. reflexivity. }
  destruct (handleTx_frame Sample.cfg Eviction.connection Sample.Date_now
              Eviction.X None st3) as [Hdb4 Hfl4].
  fold st4 in Hdb4, Hfl4. rewrite Hdb in Hdb4. rewrite Hfl in Hfl4.
  split.
  - rewrite Hchart4. vm_compute. reflexivity.
  - unfold flushToDB, stored. rewrite Hdb4, Hfl4, Hchart4.
    vm_compute. reflexivity.
Qed.

(** C3, as stated, fails once the signature has left [seen]. [X] is
    delivered, then 10000 other signatures, which evict it, then [X]
    again: [chartData] now holds two entries with the signature [X]. The
    flush that follows writes one row. *)
Lemma second_entry_after_eviction :
  let st := run Sample.cfg Eviction.connection Sample.Date_now
                Eviction.deliveries Sample.empty_state in
  List.length (rows_with Eviction.X (chartData st)) = 2%nat /\
  List.length (rows_with Eviction.X (stored (flushToDB st))) = 1%nat.
Proof.
  unfold Eviction.deliveries. apply second_entry_when_back.
  apply Z2Nat.id. lia.
Qed.

(** * Further properties *)

(** ** Looking a key up *)

Lemma findIndex_from_spec (keys : list PublicKey) (target : PublicKey) :
  forall i, 0 <= i ->
    (findIndex_from i keys target = -1 /\ ~ In target keys) \/
    (exists n, findIndex_from i keys target = i + Z.of_nat n /\
               nth_error keys n = Some target /\
               forall m, (m < n)%nat -> nth_error keys m <> Some target).
Proof.
  induction keys as [|k rest IH]; intros i Hi; cbn [findIndex_from].
  - left. split; [reflexivity | intros []].
  - unfold pk_equals. destruct (String.eqb_spec k target) as [->|Hne].
    + right. exists 0%nat. split; [lia|]. split; [reflexivity|]. intros m Hm. lia.
    + destruct (IH (i + 1) ltac:(lia)) as [[H1 H2] | (n & H1 & H2 & H3)].
      * left. split; [exact H1|]. intros [H | H]; [congruence | contradiction].
      * right. exists (S n). split; [lia|]. split; [exact H2|].
        intros [|m] Hm; cbn [nth_error]; [congruence | apply H3; lia].
Qed.

(** X1. [indexOfKey] answers -1 exactly when no key equals the target;
    otherwise it answers the position of the first key that equals it,
    a position inside the array. *)
Theorem indexOfKey_first_match (keys : list PublicKey) (target : PublicKey) :
  (indexOfKey keys target = -1 <-> ~ In target keys) /\
  (In target keys ->
     exists n,
       indexOfKey keys target = Z.of_nat n /\
       (n < List.length keys)%nat /\
       nth_error keys n = Some target /\
       forall m, (m < n)%nat -> nth_error keys m <> Some target).
Proof.
  unfold indexOfKey.
  destruct (@findIndex_from_spec keys target 0 ltac:(lia))
    as [[H1 H2] | (n & H1 & H2 & H3)].
  - split; [tauto | contradiction].
  - assert (Hin : In target keys) by (eapply nth_error_In; eassumption).
    split; [split; [lia | contradiction]|].
    intros _. exists n. split; [lia|]. split; [|auto].
    apply nth_error_Some. congruence.
Qed.

Lemma indexOfKey_first_match_witness :
  indexOfKey ["Payer"; "Pool"; "VaultA"; "Pool"]%string "Pool"%string = 1 /\
  indexOfKey ["Payer"; "Pool"]%string "VaultB"%string = -1.
Proof.
  split.
  - destruct (proj2 (indexOfKey_first_match ["Payer"; "Pool"; "VaultA"; "Pool"]%string
                                            "Pool"%string))
      as (n & Hn & _ & Hnth & Hfirst).
    + cbn. auto.
    + rewrite Hn. destruct n as [|[|n]].
      * discriminate Hnth.
      * reflexivity.
      * exfalso. apply (Hfirst 1%nat); [lia | reflexivity].
  - apply (proj1 (indexOfKey_first_match ["Payer"; "Pool"]%string "VaultB"%string)).
    cbn. intuition discriminate.
Defined.

(** ** The payload beyond its layout *)

Module DecoderMore.
Import Decoder.

Lemma byte_val_injective (a b : byte) : byte_val a = byte_val b -> a = b.
Proof.
  unfold byte_val. intros H.
  assert (Hn : Byte.to_N a = Byte.to_N b) by lia.
  pose proof (Byte.of_to_N a) as Ha. pose proof (Byte.of_to_N b) as Hb.
  rewrite Hn in Ha. congruence.
Qed.

Lemma le_uint_injective (l1 : list byte) : forall l2,
  List.length l1 = List.length l2 -> le_uint l1 = le_uint l2 -> l1 = l2.
Proof.
  induction l1 as [|a l1 IH]; intros [|b l2] Hlen Heq; try discriminate.
  - reflexivity.
  - cbn [le_uint] in Heq. cbn [List.length] in Hlen.
    pose proof (DecoderFacts.byte_val_range a). pose proof (DecoderFacts.byte_val_range b).
    assert (byte_val a = byte_val b /\ le_uint l1 = le_uint l2) as [Hb Hr] by lia.
    f_equal; [now apply byte_val_injective | apply IH; [lia | exact Hr]].
Qed.

Lemma firstn_17 (buf : list byte) :
  (17 <= List.length buf)%nat ->
  firstn 17 buf = firstn 1 buf ++ bytes_at buf 1 8 ++ bytes_at buf 9 8.
Proof.
  intros Hlen. do 17 (destruct buf as [|? buf]; [simpl in Hlen; lia|]).
  reflexivity.
Qed.

End DecoderMore.

(** X2. Only the first 17 bytes of a payload count: what follows them is
    ignored, so a longer payload decodes as its first 17 bytes do. *)
Theorem decode_ignores_tail (buf : list byte) :
  Decoder.decodeSwapInstruction buf
    = Decoder.decodeSwapInstruction (firstn 17 buf).
Proof.
  destruct (Nat.lt_ge_cases (List.length buf) 17) as [Hshort | Hlong].
  - now rewrite firstn_all2 by lia.
  - do 17 (destruct buf as [|? buf]; [simpl in Hlong; lia|]).
    reflexivity.
Qed.

(** X3. Decoding loses nothing of the layout: two payloads that decode to
    the same swap agree on their first 17 bytes. *)
Theorem decode_determines_layout (buf1 buf2 : list byte) (d : Decoder.DecodedSwap) :
  Decoder.decodeSwapInstruction buf1 = Some d ->
  Decoder.decodeSwapInstruction buf2 = Some d ->
  firstn 17 buf1 = firstn 17 buf2.
Proof.
  intros H1 H2.
  assert (Hfacts : forall buf,
            Decoder.decodeSwapInstruction buf = Some d ->
            (17 <= List.length buf)%nat /\ firstn 1 buf = [x01] /\
            Decoder.le_uint (Decoder.bytes_at buf 1 8) = Decoder.amountIn d /\
            Decoder.le_uint (Decoder.bytes_at buf 9 8) = Decoder.minAmountOut d).
  { intros buf H. unfold Decoder.decodeSwapInstruction in H.
    destruct (Nat.ltb_spec (List.length buf) 17) as [Hs|Hlen];
      cbn [orb] in H; [discriminate|].
    destruct (Decoder.tag_is_swap buf) eqn:Htag; cbn [negb] in H; [|discriminate].
    destruct (DecoderFacts.decode_reads_in_range buf Hlen) as [R1 R9].
    rewrite R1, R9 in H. injection H as <-. cbn [Decoder.amountIn Decoder.minAmountOut].
    apply DecoderFacts.tag_is_swap_spec in Htag.
    split; [exact Hlen|]. split; [|split; reflexivity].
    destruct buf as [|b buf]; [discriminate|].
    cbn in Htag. injection Htag as ->. reflexivity. }
  destruct (Hfacts buf1 H1) as (L1 & T1 & A1 & M1).
  destruct (Hfacts buf2 H2) as (L2 & T2 & A2 & M2).
  rewrite (DecoderMore.firstn_17 buf1 L1), (DecoderMore.firstn_17 buf2 L2).
  rewrite T1, T2. f_equal. f_equal.
  - apply DecoderMore.le_uint_injective; [|congruence].
    unfold Decoder.bytes_at. rewrite !length_firstn, !length_skipn. lia.
  - apply DecoderMore.le_uint_injective; [|congruence].
    unfold Decoder.bytes_at. rewrite !length_firstn, !length_skipn. lia.
Qed.

Lemma decode_determines_layout_witness :
  firstn 17 (Sample.swap_payload ++ [xff; xee]) = firstn 17 Sample.swap_payload.
Proof.
  apply (@decode_determines_layout (Sample.swap_payload ++ [xff; xee])
           Sample.swap_payload (Decoder.mkDecodedSwap 1000000000 1));
    reflexivity.
Defined.

(** ** The size of [seen] *)

(** X4. On a set without repetition the trimming loop does nothing up to
    10000 entries; beyond, it deletes from the oldest end until exactly
    the newest 5000 entries are left, in their order. *)
Theorem trim_keeps_newest (s : list Signature) :
  NoDup s ->
  (seen_size s <= 10000 -> trim_seen s = s) /\
  (10000 < seen_size s ->
     trim_seen s = skipn (List.length s - 5000) s /\
     seen_size (trim_seen s) = 5000).
Proof.
  intros Hnd. rewrite (@trim_seen_spec s Hnd). split; intros Hsize.
  - destruct (Z.gtb_spec (seen_size s) 10000); [lia | reflexivity].
  - destruct (Z.gtb_spec (seen_size s) 10000); [|lia].
    unfold seen_size in *.
    replace (Z.to_nat (Z.of_nat (List.length s) - 5000))
      with (List.length s - 5000)%nat by lia.
    split; [reflexivity|]. rewrite length_skipn. lia.
Qed.

Lemma trim_keeps_newest_witness :
  trim_seen ["sigSellApple"; "sigRejected"]%string
    = ["sigSellApple"; "sigRejected"]%string.
Proof.
  apply (proj1 (@trim_keeps_newest ["sigSellApple"; "sigRejected"]%string
                  ltac:(repeat constructor; cbn; intuition discriminate))).
  vm_compute. discriminate.
Defined.

(** X5. The bound on [seen] holds on one path only. A call of [handleTx]
    that goes through the instruction loop and returns leaves at most
    10000 signatures in [seen], its own among them; a call on a new
    signature that returns before the loop (no transaction, no balances,
    no swap-program instruction) adds the signature and trims nothing,
    whatever the size of [seen]. *)
Theorem seen_trimmed_after_loop_only (cfg : Config) (connection : Connection)
    (Date_now : number) (sig : Signature) (slot : option nat) (st : State) :
  NoDup (seen st) ->
  seen_has sig (seen st) = false ->
  (enters_loop cfg connection sig st = true ->
     forall st', handleTx cfg connection Date_now sig slot st = Returned st' ->
       seen st' = trim_seen (seen st ++ [sig]) /\
       seen_size (seen st') <= 10000 /\ In sig (seen st')) /\
  (enters_loop cfg connection sig st = false ->
     handleTx cfg connection Date_now sig slot st
       = Returned (with_seen st (seen st ++ [sig]))).
Proof.
  intros Hnd Hseen. unfold enters_loop, handleTx, seen_add. rewrite Hseen.
  cbn [negb andb].
  assert (Hnd' : NoDup (seen st ++ [sig])).
  { pose proof (@seen_add_nodup sig (seen st) Hnd) as H.
    unfold seen_add in H. now rewrite Hseen in H. }
  destruct (getParsedTransaction connection sig) as [tx|];
    [|split; [discriminate | reflexivity]].
  destruct (is_empty (pre_balances tx) || is_empty (post_balances tx));
    cbn [negb andb]; [split; [discriminate | reflexivity]|].
  destruct (is_empty (swap_instructions cfg tx));
    cbn [negb]; [split; [discriminate | reflexivity]|].
  split; [|discriminate]. intros _ st' H.
  destruct (swap_loop _ _ _ _ _ _ _ _ _); [|discriminate].
  injection H as <-. cbn [seen with_seen].
  split; [reflexivity|]. split; [|now apply trim_seen_keeps_last].
  rewrite (@trim_seen_spec _ Hnd').
  destruct (Z.gtb_spec (seen_size (seen st ++ [sig])) 10000) as [Hbig|Hsmall];
    [|exact Hsmall].
  unfold seen_size in *. rewrite length_skipn. lia.
Qed.

Lemma seen_trimmed_after_loop_only_witness :
  handleTx Sample.cfg Sample.connection Sample.Date_now "sigTransfer"%string None
           Sample.empty_state
  = Returned (with_seen Sample.empty_state ["sigTransfer"%string]).
Proof.
  apply (proj2 (@seen_trimmed_after_loop_only Sample.cfg Sample.connection
                  Sample.Date_now "sigTransfer"%string None Sample.empty_state
                  ltac:(constructor) eq_refl)).
  reflexivity.
Defined.

(** ** Flushing *)

Section FlushFacts.

Lemma insert_or_ignore_appends rows c :
  exists added, insert_or_ignore rows c = rows ++ added /\
                (added = [] \/ added = [c]).
Proof.
  unfold insert_or_ignore. destruct (existsb _ rows).
  - exists []. split; [now rewrite app_nil_r | now left].
  - exists [c]. split; [reflexivity | now right].
Qed.

Lemma flush_rows_append (cs : list SwapData) : forall rows,
  exists added, fold_left insert_or_ignore cs rows = rows ++ added /\
                Forall (fun r => In r cs) added.
Proof.
  induction cs as [|c cs IH]; intros rows; cbn [fold_left].
  - exists []. split; [now rewrite app_nil_r | constructor].
  - destruct (insert_or_ignore_appends rows c) as (a1 & H1 & Ha1).
    destruct (IH (insert_or_ignore rows c)) as (a2 & H2 & Ha2).
    exists (a1 ++ a2). split; [rewrite H2, H1, app_assoc; reflexivity|].
    apply Forall_app. split.
    + destruct Ha1 as [-> | ->]; [constructor|].
      constructor; [now left | constructor].
    + eapply Forall_impl; [|exact Ha2]. intros r Hr. now right.
Qed.

Lemma rows_with_app sig l1 l2 :
  rows_with sig (l1 ++ l2) = rows_with sig l1 ++ rows_with sig l2.
Proof. unfold rows_with. apply filter_app. Qed.

(** Once a signature has its row, no insertion changes its rows. *)
Lemma flush_rows_settled sig (cs : list SwapData) : forall rows,
  In sig (map signature rows) ->
  rows_with sig (fold_left insert_or_ignore cs rows) = rows_with sig rows.
Proof.
  induction cs as [|c cs IH]; intros rows Hin; cbn [fold_left]; [reflexivity|].
  assert (Hstep : rows_with sig (insert_or_ignore rows c) = rows_with sig rows /\
                  In sig (map signature (insert_or_ignore rows c))).
  { unfold insert_or_ignore. destruct (existsb _ rows) eqn:E; [auto|].
    split.
    - rewrite rows_with_app. cbn [rows_with filter].
      destruct (String.eqb_spec (signature c) sig) as [Heq|_];
        [|now rewrite app_nil_r].
      exfalso. apply in_map_iff in Hin. destruct Hin as (r & Hr & Hin).
      assert (existsb (fun r0 => String.eqb (signature r0) (signature c)) rows = true).
      { apply existsb_exists. exists r. split; [exact Hin|].
        apply String.eqb_eq. congruence. }
      congruence.
    - rewrite map_app. apply in_or_app. now left. }
  destruct Hstep as [H1 H2]. rewrite (IH _ H2). exact H1.
Qed.

(** Rows of other signatures do not bring a signature in. *)
Lemma flush_rows_absent sig (cs : list SwapData) : forall rows,
  ~ In sig (map signature rows) ->
  Forall (fun c => signature c <> sig) cs ->
  ~ In sig (map signature (fold_left insert_or_ignore cs rows)).
Proof.
  induction cs as [|c cs IH]; intros rows Hno Hcs; cbn [fold_left]; [exact Hno|].
  inversion Hcs as [|? ? Hc Hrest]; subst.
  apply IH; [|exact Hrest].
  destruct (insert_or_ignore_appends rows c) as (a & -> & [-> | ->]).
  - now rewrite app_nil_r.
  - rewrite map_app. cbn [map]. intros H. apply in_app_or in H.
    destruct H as [H | [H | []]]; [now apply Hno | now apply Hc].
Qed.

End FlushFacts.

(** X6. A flush right after a flush changes nothing. A flush never
    touches [seen], [chartData] or the cursor, and with the table open
    it leaves the watermark at the length of [chartData]. *)
Theorem flush_twice (st : State) :
  flushToDB (flushToDB st) = flushToDB st /\
  seen (flushToDB st) = seen st /\
  chartData (flushToDB st) = chartData st /\
  lastSavedSignature (flushToDB st) = lastSavedSignature st /\
  (db st <> None -> lastFlushed (flushToDB st) = List.length (chartData st)).
Proof.
  unfold flushToDB. destruct (db st) as [rows|] eqn:Hdb.
  - destruct (Nat.eqb_spec (List.length (chartData st)) (lastFlushed st)) as [Heq|Hne].
    + rewrite Hdb, (proj2 (Nat.eqb_eq _ _) Heq). repeat split; auto.
    + cbn [db chartData lastFlushed seen lastSavedSignature].
      rewrite Nat.eqb_refl. repeat split; auto.
  - rewrite Hdb. repeat split; auto. intros H. congruence.
Qed.

Lemma flush_twice_witness :
  lastFlushed (flushToDB (state_of (handleTx Sample.cfg Sample.connection
                 Sample.Date_now "sigSellApple"%string None Sample.empty_state)))
  = 1%nat.
Proof.
  set (st := state_of (handleTx Sample.cfg Sample.connection Sample.Date_now
                                "sigSellApple"%string None Sample.empty_state)).
  rewrite (proj2 (proj2 (proj2 (proj2 (flush_twice st))))).
  - reflexivity.
  - vm_compute. discriminate.
Defined.

(** X7. A flush only appends to the table: the rows that were there stay,
    in their order, and every row added is an entry of [chartData] above
    the watermark. *)
Theorem flush_appends (st : State) :
  exists added,
    stored (flushToDB st) = stored st ++ added /\
    Forall (fun r => In r (skipn (lastFlushed st) (chartData st))) added.
Proof.
  unfold flushToDB, stored. destruct (db st) as [rows|] eqn:Hdb.
  2:{ exists []. rewrite Hdb. split; [reflexivity | constructor]. }
  destruct (List.length (chartData st) =? lastFlushed st)%nat.
  - exists []. rewrite Hdb. split; [now rewrite app_nil_r | constructor].
  - cbn [db]. apply flush_rows_append.
Qed.

(** X8. Of several entries of [chartData] with one signature, the table
    takes the first: when the signature has no row yet and [c] is the
    first entry above the watermark that carries it, the flush leaves
    [c] as its only row, whatever follows. *)
Theorem flush_keeps_first_row (st : State) (rows pre post : list SwapData)
    (c : SwapData) :
  db st = Some rows ->
  ~ In (signature c) (map signature rows) ->
  skipn (lastFlushed st) (chartData st) = pre ++ c :: post ->
  Forall (fun r => signature r <> signature c) pre ->
  rows_with (signature c) (stored (flushToDB st)) = [c].
Proof.
  intros Hdb Hno Hskip Hpre. unfold flushToDB, stored. rewrite Hdb.
  destruct (Nat.eqb_spec (List.length (chartData st)) (lastFlushed st)) as [Heq|_].
  { exfalso. rewrite <- Heq, skipn_all in Hskip. now destruct pre. }
  cbn [db]. rewrite Hskip, fold_left_app. cbn [fold_left].
  pose proof (@flush_rows_absent (signature c) pre rows Hno Hpre) as Habs.
  set (t1 := fold_left insert_or_ignore pre rows) in *.
  assert (Hins : insert_or_ignore t1 c = t1 ++ [c]).
  { unfold insert_or_ignore. destruct (existsb _ t1) eqn:E; [|reflexivity].
    exfalso. apply Habs. apply existsb_exists in E. destruct E as (r & Hr & Heq).
    apply String.eqb_eq in Heq. rewrite <- Heq. now apply in_map. }
  rewrite Hins, flush_rows_settled.
  - rewrite rows_with_app, (@rows_with_absent (signature c) t1 Habs).
    cbn [app rows_with filter]. now rewrite String.eqb_refl.
  - rewrite map_app. apply in_or_app. right. now left.
Qed.

(** A transaction with the same swap instruction twice: two entries in
    [chartData], one row in the table. *)
Lemma flush_keeps_first_row_witness :
  let st := state_of (handleTx Sample.cfg Sample2.connection Sample.Date_now
                               "sigTwice"%string None Sample.empty_state) in
  List.length (chartData st) = 2%nat /\
  rows_with "sigTwice"%string (stored (flushToDB st)) = [Sample2.row_twice].
Proof.
  cbv zeta. split; [reflexivity|].
  apply (@flush_keeps_first_row _ [] [] [Sample2.row_twice] Sample2.row_twice).
  - reflexivity.
  - intros [].
  - reflexivity.
  - constructor.
Defined.

(** ** What [handleTx] leaves alone *)

Lemma push_signature cfg now sig tx pre post msgKeys inst row :
  swap_iteration cfg now sig tx pre post msgKeys inst = Push row ->
  signature row = sig.
Proof.
  intros H. apply swap_iteration_push in H. destruct H. subst row. reflexivity.
Qed.

Lemma swap_loop_count cfg now sig tx pre post msgKeys swaps : forall chart,
  exists new,
    state_of (swap_loop cfg now sig tx pre post msgKeys swaps chart) = chart ++ new /\
    (List.length new <= List.length swaps)%nat /\
    Forall (fun r => signature r = sig) new.
Proof.
  induction swaps as [|inst rest IH]; intros chart; cbn [swap_loop].
  - exists []. split; [now rewrite app_nil_r|]. split; [cbn; lia | constructor].
  - destruct (swap_iteration cfg now sig tx pre post msgKeys inst) as [|row|] eqn:E.
    + destruct (IH chart) as (new & H1 & H2 & H3). exists new.
      split; [exact H1|]. split; [cbn; lia | exact H3].
    + destruct (IH (chart ++ [row])) as (new & H1 & H2 & H3). exists (row :: new).
      split; [rewrite H1, <- app_assoc; reflexivity|].
      split; [cbn; lia|]. constructor; [|exact H3].
      eapply push_signature. exact E.
    + exists []. split; [now rewrite app_nil_r|]. split; [cbn; lia | constructor].
Qed.

(** X9. [handleTx] never writes to the table and never moves the
    watermark. It never removes or changes an entry of [chartData]: it
    appends, in the order of the instructions, at most one row per
    swap-program instruction of the transaction, and every row it appends
    carries the signature it was called with. *)
Theorem handleTx_only_appends (cfg : Config) (connection : Connection)
    (Date_now : number) (sig : Signature) (slot : option nat) (st : State) :
  let st' := state_of (handleTx cfg connection Date_now sig slot st) in
  db st' = db st /\
  lastFlushed st' = lastFlushed st /\
  exists new,
    chartData st' = chartData st ++ new /\
    Forall (fun r => signature r = sig) new /\
    (List.length new <=
       match getParsedTransaction connection sig with
       | Some tx => List.length (swap_instructions cfg tx)
       | None => 0
       end)%nat.
Proof.
  cbv zeta.
  destruct (handleTx_frame cfg connection Date_now sig slot st) as [Hdb Hfl].
  split; [exact Hdb|]. split; [exact Hfl|].
  unfold handleTx.
  assert (Hnone : exists new : list SwapData,
             chartData st = chartData st ++ new /\
             Forall (fun r => signature r = sig) new /\
             (List.length new <= 0)%nat).
  { exists []. split; [now rewrite app_nil_r|]. split; [constructor | cbn; lia]. }
  destruct Hnone as (n0 & Hn1 & Hn2 & Hn3).
  destruct (seen_has sig (seen st)).
  { exists n0. split; [exact Hn1|]. split; [exact Hn2|].
    destruct (getParsedTransaction connection sig); lia. }
  destruct (getParsedTransaction connection sig) as [tx|].
  2:{ exists n0. auto. }
  destruct (is_empty (pre_balances tx) || is_empty (post_balances tx)).
  { exists n0. split; [exact Hn1|]. split; [exact Hn2 | lia]. }
  destruct (is_empty (swap_instructions cfg tx)).
  { exists n0. split; [exact Hn1|]. split; [exact Hn2 | lia]. }
  cbn [with_seen chartData].
  destruct (swap_loop_count cfg Date_now sig tx (pre_balances tx) (post_balances tx)
              (toPubkeyArray (accountKeys tx)) (swap_instructions cfg tx)
              (chartData st)) as (new & H1 & H2 & H3).
  exists new. split; [|auto].
  destruct (swap_loop _ _ _ _ _ _ _ _ _); cbn in *; exact H1.
Qed.

(** ** Instructions that are short of accounts *)

Lemma indexOfKey_at_none (keys accs : list PublicKey) (i : nat) :
  indexOfKey_at keys accs i = None <->
  keys <> [] /\ (List.length accs <= i)%nat.
Proof.
  unfold indexOfKey_at. destruct (nth_error accs i) eqn:E.
  - split; [discriminate|]. intros [_ H].
    apply nth_error_None in H. congruence.
  - apply nth_error_None in E. destruct keys as [|k keys].
    + split; [discriminate|]. intros [H _]. congruence.
    + split; [|reflexivity]. intros _. split; [discriminate | exact E].
Qed.

(** X10. A turn of the loop throws exactly when the payload is a swap,
    the message has keys and the instruction names fewer than seven
    accounts. When [handleTx] throws, the signature is in [seen] all the
    same, the cursor has not moved, the rows pushed before stay in
    [chartData], and a new delivery of the signature returns at once:
    the transaction is not handled again. *)
Theorem throw_on_short_instruction (cfg : Config) (connection : Connection)
    (Date_now : number) :
  (forall sig tx pre post msgKeys inst,
      swap_iteration cfg Date_now sig tx pre post msgKeys inst = Raise <->
      Decoder.decodeSwapInstruction (data inst) <> None /\
      msgKeys <> [] /\ (List.length (accounts inst) < 7)%nat) /\
  (forall sig slot st st',
      handleTx cfg connection Date_now sig slot st = Thrown st' ->
      In sig (seen st') /\
      lastSavedSignature st' = lastSavedSignature st /\
      (exists new, chartData st' = chartData st ++ new) /\
      forall slot', handleTx cfg connection Date_now sig slot' st' = Returned st').
Proof.
  split.
  - intros sig tx pre post msgKeys inst. unfold swap_iteration.
    destruct (Decoder.decodeSwapInstruction (data inst)) as [d|].
    2:{ split; [discriminate | intros [H _]; congruence]. }
    pose proof (indexOfKey_at_none msgKeys (accounts inst) 3) as H3.
    pose proof (indexOfKey_at_none msgKeys (accounts inst) 6) as H6.
    destruct (indexOfKey_at msgKeys (accounts inst) 3) as [srcIdx|].
    2:{ destruct (proj1 H3 eq_refl) as [Hk Hl].
        split; [intros _|reflexivity]. repeat split; [discriminate | exact Hk | lia]. }
    destruct (indexOfKey_at msgKeys (accounts inst) 6) as [dstIdx|].
    2:{ destruct (proj1 H6 eq_refl) as [Hk Hl].
        split; [intros _|reflexivity]. repeat split; [discriminate | exact Hk | lia]. }
    split.
    + assert (Hnever : forall it : iteration, it = Raise -> it <> Raise -> False)
        by (intros it H Hn; exact (Hn H)).
      intros H. exfalso. apply (Hnever _ H). clear H Hnever.
      destruct ((srcIdx <? 0) || (dstIdx <? 0)); [discriminate|].
      destruct (find_balance pre srcIdx), (find_balance post srcIdx),
               (find_balance pre dstIdx), (find_balance post dstIdx);
        try discriminate.
      cbv zeta.
      repeat match goal with
             | |- context [if ?b then _ else _] => destruct b; try discriminate
             | |- context [match find_balance ?l ?i with _ => _ end] =>
                 destruct (find_balance l i); try discriminate
             end.
    + intros (_ & Hk & Hl). exfalso.
      assert (H : @None Z = Some dstIdx) by (symmetry; apply H6; split; [exact Hk | lia]).
      discriminate.
  - intros sig slot st st' H.
    destruct (handleTx_cursor cfg connection Date_now sig slot st) as [Hcur _].
    destruct (handleTx_appends cfg connection Date_now sig slot st) as (new & Hnew & _).
    rewrite H in Hnew. cbn [state_of] in Hnew.
    assert (Hin : In sig (seen st')).
    { unfold handleTx in H.
      destruct (seen_has sig (seen st)); [discriminate|].
      destruct (getParsedTransaction connection sig) as [tx|]; [|discriminate].
      destruct (is_empty (pre_balances tx) || is_empty (post_balances tx));
        [discriminate|].
      destruct (is_empty (swap_instructions cfg tx)); [discriminate|].
      destruct (swap_loop _ _ _ _ _ _ _ _ _); [discriminate|].
      injection H as <-. cbn [seen with_seen]. apply seen_add_In. }
    split; [exact Hin|]. split; [now apply Hcur|]. split; [eauto|].
    intros slot'. apply handleTx_seen. now apply seen_has_In.
Qed.

(** The sale of one Apple followed by a swap instruction with two
    accounts: the row of the sale is pushed, then the call throws, and
    the signature is not handled again. *)
Lemma throw_on_short_instruction_witness :
  exists st',
    handleTx Sample.cfg Sample2.connection Sample.Date_now "sigShort"%string None
             Sample.empty_state = Thrown st' /\
    List.length (chartData st') = 1%nat /\
    lastSavedSignature st' = None /\
    handleTx Sample.cfg Sample2.connection Sample.Date_now "sigShort"%string None st'
      = Returned st'.
Proof.
  destruct (handleTx Sample.cfg Sample2.connection Sample.Date_now "sigShort"%string
                     None Sample.empty_state) as [st'|st'] eqn:E;
    [vm_compute in E; discriminate|].
  exists st'. split; [reflexivity|].
  destruct (proj2 (throw_on_short_instruction Sample.cfg Sample2.connection
                     Sample.Date_now) _ _ _ _ E) as (_ & Hcur & _ & Hagain).
  split; [|split; [exact Hcur | apply Hagain]].
  vm_compute in E. injection E as <-. reflexivity.
Defined.

(** ** A transaction that is not there yet *)

(** X11. When the connection has no transaction for a new signature,
    [handleTx] has already put the signature in [seen] and changes
    nothing else; whatever the connection answers afterwards, a new
    delivery of that signature returns at once. *)
Theorem missing_tx_marked_seen (cfg : Config) (connection : Connection)
    (Date_now : number) (sig : Signature) (slot : option nat) (st : State) :
  seen_has sig (seen st) = false ->
  getParsedTransaction connection sig = None ->
  let st' := with_seen st (seen st ++ [sig]) in
  handleTx cfg connection Date_now sig slot st = Returned st' /\
  forall connection' Date_now' slot',
    handleTx cfg connection' Date_now' sig slot' st' = Returned st'.
Proof.
  intros Hseen Htx st'. split.
  - unfold handleTx, seen_add. now rewrite Hseen, Htx.
  - intros connection' Date_now' slot'. apply handleTx_seen.
    apply seen_has_In. cbn [st' seen with_seen]. apply in_or_app. right. now left.
Qed.

(** The sale of one Apple, announced before the connection has it, is
    passed over when it is delivered again. *)
Lemma missing_tx_marked_seen_witness :
  handleTx Sample.cfg Sample.connection Sample.Date_now "sigSellApple"%string None
           (with_seen Sample.empty_state ["sigSellApple"%string])
  = Returned (with_seen Sample.empty_state ["sigSellApple"%string]).
Proof.
  exact (proj2 (@missing_tx_marked_seen Sample.cfg LongLedger.connection
                  Sample.Date_now "sigSellApple"%string None Sample.empty_state
                  eq_refl eq_refl)
               Sample.connection Sample.Date_now None).
Defined.

(** ** Every swap is pushed *)

(** X12. The tests of the loop are also sufficient: an instruction with
    a swap payload, whose accounts 3 and 6 are among the message keys
    and have their balance entries before and after, with a negative
    source delta and a positive destination delta, and whose two vaults
    are among the keys with a balance entry after, pushes its row. *)
Theorem swap_iteration_complete (cfg : Config) (Date_now : number)
    (sig : Signature) (tx : ParsedTransaction) (pre post : list TokenBalance)
    (msgKeys : list PublicKey) (inst : Instruction) (row : SwapData) :
  pushed cfg Date_now sig tx pre post msgKeys inst row ->
  swap_iteration cfg Date_now sig tx pre post msgKeys inst = Push row.
Proof.
  intros []. unfold swap_iteration.
  destruct (Decoder.decodeSwapInstruction (data inst)); [|congruence].
  rewrite p_src, p_dst.
  rewrite (proj2 (Z.ltb_ge p_srcIdx 0) p_src_found).
  rewrite (proj2 (Z.ltb_ge p_dstIdx 0) p_dst_found). cbn [orb].
  rewrite p_find_preSrc, p_find_postSrc, p_find_preDst, p_find_postDst.
  cbv zeta.
  rewrite Z.geb_leb, (proj2 (Z.leb_gt _ _) p_in_negative).
  rewrite (proj2 (Z.leb_gt _ _) p_out_positive). cbn [orb].
  rewrite (proj2 (Z.ltb_ge _ 0) p_vaultA), (proj2 (Z.ltb_ge _ 0) p_vaultB).
  cbn [orb]. rewrite p_find_postVA, p_find_postVB.
  subst row. reflexivity.
Qed.

Lemma swap_iteration_complete_witness :
  swap_iteration Sample.cfg Sample.Date_now "sigSellApple"%string
    Sample.tx_sell_apple (pre_balances Sample.tx_sell_apple)
    (post_balances Sample.tx_sell_apple)
    (toPubkeyArray (accountKeys Sample.tx_sell_apple))
    Sample.swap_apple_to_banana = Push Sample2.row_apple.
Proof.
  apply swap_iteration_complete.
  apply mkPushed with (p_srcIdx := 3) (p_dstIdx := 6)
    (p_preSrc := mkTokenBalance 3 "MintApple"%string 5000000000)
    (p_postSrc := mkTokenBalance 3 "MintApple"%string 4000000000)
    (p_preDst := mkTokenBalance 6 "MintBanana"%string 0)
    (p_postDst := mkTokenBalance 6 "MintBanana"%string 2000000)
    (p_postVA := mkTokenBalance 4 "MintApple"%string 101000000000)
    (p_postVB := mkTokenBalance 5 "MintBanana"%string 198000000);
    try reflexivity; try (vm_compute; discriminate).
Defined.

(** ** The amounts of a row *)

Lemma pushed_amounts cfg now sig tx pre post msgKeys inst row :
  pushed cfg now sig tx pre post msgKeys inst row ->
  exists rawIn rawOut,
    0 < rawIn /\ 0 < rawOut /\
    let fromA := pk_equals (swappedFrom row) (mintAAddress cfg) in
    let d := if fromA then decimalsA cfg else decimalsB cfg in
    amountIn row = Num.Fin (Num.to_decimal rawIn d) /\
    amountOut row = Num.Fin (Num.to_decimal rawOut d) /\
    amountBase row
      = Num.Fin (Num.to_decimal (if fromA then rawIn else rawOut) (decimalsA cfg)) /\
    amountQuote row
      = Num.Fin (Num.to_decimal (if fromA then rawOut else rawIn) (decimalsB cfg)).
Proof.
  intros [].
  exists (- diffAmount (Some p_preSrc) (Some p_postSrc)),
         (diffAmount (Some p_preDst) (Some p_postDst)).
  split; [lia|]. split; [lia|]. subst row. unfold row_of. cbv zeta.
  cbn [amountIn amountOut amountBase amountQuote swappedFrom].
  destruct (pk_equals (mint p_preSrc) (mintAAddress cfg));
    rewrite ?toFloatA_decimal, ?toFloatB_decimal; auto.
Qed.

(** X13. In every row that [handleTx] appends, [amountIn] and
    [amountOut] are both positive raw amounts divided by one and the
    same power of ten: the precision of mint A when the source mint is
    mint A, that of mint B otherwise. [amountBase] is the mint-A side
    with the precision of mint A and [amountQuote] the other side with
    the precision of mint B. *)
Theorem amounts_share_source_precision (cfg : Config) (connection : Connection)
    (Date_now : number) (sig : Signature) (slot : option nat) (st : State) :
  exists new,
    chartData (state_of (handleTx cfg connection Date_now sig slot st))
      = chartData st ++ new /\
    Forall (fun row =>
      exists rawIn rawOut,
        0 < rawIn /\ 0 < rawOut /\
        let fromA := pk_equals (swappedFrom row) (mintAAddress cfg) in
        let d := if fromA then decimalsA cfg else decimalsB cfg in
        amountIn row = Num.Fin (Num.to_decimal rawIn d) /\
        amountOut row = Num.Fin (Num.to_decimal rawOut d) /\
        amountBase row
          = Num.Fin (Num.to_decimal (if fromA then rawIn else rawOut) (decimalsA cfg)) /\
        amountQuote row
          = Num.Fin (Num.to_decimal (if fromA then rawOut else rawIn) (decimalsB cfg)))
      new.
Proof.
  destruct (handleTx_appends cfg connection Date_now sig slot st) as (new & Hnew & Hall).
  exists new. split; [exact Hnew|].
  eapply Forall_impl; [|exact Hall].
  intros row (tx & inst & _ & _ & Hp). eapply pushed_amounts. exact Hp.
Qed.

(** ** Start-up *)

Section RestoreFacts.

Lemma seen_add_iff (sig x : Signature) (s : list Signature) :
  In x (seen_add sig s) <-> x = sig \/ In x s.
Proof.
  unfold seen_add. destruct (seen_has sig s) eqn:E.
  - apply seen_has_In in E. split; [auto | intros [-> | H]; assumption].
  - rewrite in_app_iff. cbn [In]. split.
    + intros [H | [H | []]]; auto.
    + intros [H | H]; auto.
Qed.

Lemma restore_rows (rows : list SwapData) : forall st,
  let st' := fold_left restore_row rows st in
  chartData st' = chartData st ++ rows /\
  db st' = db st /\
  lastSavedSignature st' = lastSavedSignature st /\
  (NoDup (seen st) -> NoDup (seen st')) /\
  (forall x, In x (seen st') <-> In x (seen st) \/ In x (map signature rows)).
Proof.
  induction rows as [|r rows IH]; intros st; cbv zeta; cbn [fold_left].
  - rewrite app_nil_r. repeat split; auto. cbn. tauto.
  - destruct (IH (restore_row st r)) as (Hc & Hd & Hl & Hn & Hs).
    cbn [restore_row chartData db seen lastSavedSignature] in Hc, Hd, Hl, Hn, Hs.
    split; [rewrite Hc, <- app_assoc; reflexivity|].
    split; [exact Hd|]. split; [exact Hl|]. split.
    + intros Hnd. apply Hn. now apply seen_add_nodup.
    + intros x. rewrite Hs, seen_add_iff. cbn [map In]. intuition congruence.
Qed.

End RestoreFacts.

(** X14. Start-up from a table with one row per signature, [rows] being
    the rows of the table in the order of the query: [chartData] is
    [rows], [seen] holds exactly the signatures of the table, nothing is
    left to flush, the cursor is the signature of the last row of the
    query (none for an empty table), and a delivery of a signature that
    has a row returns at once. *)
Theorem restore_ready (table rows : list SwapData) :
  NoDup (map signature table) ->
  Permutation rows table ->
  let st := restore table rows in
  sink_ok st /\
  chartData st = rows /\
  flushToDB st = st /\
  (forall sig, In sig (seen st) <-> In sig (map signature table)) /\
  (rows = [] -> lastSavedSignature st = None) /\
  (forall init r, rows = init ++ [r] -> lastSavedSignature st = Some (signature r)) /\
  (forall cfg connection Date_now sig slot,
      In sig (map signature table) ->
      handleTx cfg connection Date_now sig slot st = Returned st).
Proof.
  intros Hnd Hperm st.
  destruct (restore_rows rows (opened table)) as (Hc & Hd & Hl & Hn & Hs).
  cbn [opened chartData db seen lastSavedSignature app] in Hc, Hd, Hl, Hn, Hs.
  assert (Hchart : chartData st = rows) by exact Hc.
  assert (Hdb : db st = Some table) by exact Hd.
  assert (Hfl : lastFlushed st = List.length rows).
  { unfold st, restore. cbn [lastFlushed]. now rewrite Hc. }
  assert (Hseen : forall sig, In sig (seen st) <-> In sig (map signature table)).
  { intros sig. unfold st, restore. cbn [seen]. rewrite Hs. split.
    - intros [[] | H]. eapply Permutation_in; [|exact H].
      now apply Permutation_map.
    - intros H. right. eapply Permutation_in; [|exact H].
      apply Permutation_map. now symmetry. }
  split; [|split; [exact Hchart|split; [|split; [exact Hseen|split; [|split]]]]].
  - exists table. rewrite Hchart, Hfl. split; [exact Hdb|]. split; [exact Hnd|].
    split; [apply Hn; constructor|]. split; [lia|].
    rewrite firstn_all. apply Forall_forall. intros row Hrow.
    apply in_map. eapply Permutation_in; eassumption.
  - unfold flushToDB. rewrite Hdb, Hchart, Hfl. now rewrite Nat.eqb_refl.
  - intros ->. reflexivity.
  - intros init r ->. unfold st, restore. destruct (init ++ [r]) eqn:E.
    + now destruct init.
    + rewrite <- E, length_app. cbn [List.length].
      replace (List.length init + 1 - 1)%nat with (List.length init) by lia.
      rewrite nth_error_app2 by lia. now rewrite Nat.sub_diag.
  - intros cfg connection Date_now sig slot Hin.
    apply handleTx_seen. apply seen_has_In. now apply Hseen.
Qed.

Lemma restore_ready_witness :
  let st := restore [Sample2.row_twice; Sample2.row_apple]
                    [Sample2.row_apple; Sample2.row_twice] in
  lastSavedSignature st = Some "sigTwice"%string /\
  handleTx Sample.cfg Sample2.connection Sample.Date_now "sigSellApple"%string None st
    = Returned st.
Proof.
  cbv zeta.
  destruct (@restore_ready [Sample2.row_twice; Sample2.row_apple]
                           [Sample2.row_apple; Sample2.row_twice])
    as (_ & _ & _ & _ & _ & Hlast & Hskip).
  - cbn. repeat constructor; cbn; intuition discriminate.
  - apply perm_swap.
  - split.
    + apply (Hlast [Sample2.row_apple] Sample2.row_twice). reflexivity.
    + apply Hskip. cbn. auto.
Defined.

(** ** A pass from any cursor *)

Lemma window_length (L : list Signature) (before until : option Signature) :
  (List.length (window L before until) <= List.length L)%nat.
Proof.
  destruct (window_framed L before until) as (P & T & HL & _).
  rewrite HL at 2. rewrite !length_app. lia.
Qed.

Lemma window_whole (L : list Signature) (until : option Signature) :
  (until = None \/ exists u, until = Some u /\ ~ In u L) ->
  window L None until = L.
Proof.
  intros [-> | (u & -> & Hu)]; unfold window; [reflexivity|].
  now apply newer_than_absent.
Qed.

(** X15. On a ledger without repetition [backfill] ends whatever the
    cursor, within one request more than there are pages: it calls
    [handleTx] once on every signature between the cursor and the newest
    end (a call that throws ends the pass). Without a cursor, or with a
    cursor that the ledger does not hold, that is the whole ledger; with
    the newest signature as cursor nothing is handled and the state is
    returned as it was. *)
Theorem backfill_any_cursor (cfg : Config) (connection : Connection)
    (Date_now : number) (fromSig : option Signature) (fuel : nat) (st : State) :
  NoDup (ledger connection) ->
  (List.length (ledger connection) < fuel)%nat ->
  exists visits,
    backfill cfg connection Date_now fuel fromSig st
      = Some (for_each (handleTx cfg connection Date_now)
                       (map (info connection) visits) st) /\
    Permutation visits (window (rev (ledger connection)) None fromSig) /\
    ((fromSig = None \/ exists u, fromSig = Some u /\ ~ In u (ledger connection)) ->
       Permutation visits (ledger connection)) /\
    (forall older u, ledger connection = older ++ [u] -> fromSig = Some u ->
       backfill cfg connection Date_now fuel fromSig st = Some (Returned st)).
Proof.
  intros Hnd Hfuel.
  assert (Hpos : (0 < page_limit)%nat) by (unfold page_limit; lia).
  assert (Hlen : (List.length (window (rev (ledger connection)) None fromSig) < fuel)%nat).
  { pose proof (window_length (rev (ledger connection)) None fromSig) as H.
    rewrite length_rev in H. lia. }
  assert (Hcalls := @backfill_loop_calls State (handleTx cfg connection Date_now)
                      connection page_limit Hpos Hnd fromSig fuel None st Hlen).
  fold (backfill cfg connection Date_now fuel fromSig st) in Hcalls.
  exists (flat_map (@rev Signature)
            (pages fuel page_limit (window (rev (ledger connection)) None fromSig))).
  split; [exact Hcalls|].
  assert (Hperm := @pages_permutation page_limit Hpos fuel
                     (window (rev (ledger connection)) None fromSig) Hlen).
  split; [exact Hperm|]. split.
  - intros Hwhole.
    assert (Hw : window (rev (ledger connection)) None fromSig = rev (ledger connection)).
    { apply window_whole. destruct Hwhole as [H | (u & H & Hu)]; [now left|].
      right. exists u. split; [exact H|]. now rewrite <- in_rev. }
    rewrite Hw in Hperm |- *.
    etransitivity; [exact Hperm|]. symmetry. apply Permutation_rev.
  - intros older u Hledger ->. rewrite Hcalls.
    rewrite Hledger, (@window_after_cursor older [] u).
    + cbn [rev]. now rewrite pages_nil.
    + now rewrite <- Hledger.
Qed.

Lemma backfill_any_cursor_witness :
  backfill Sample.cfg Sample.connection Sample.Date_now 6
           (Some "sigTransfer"%string) Sample.empty_state
  = Some (Returned Sample.empty_state).
Proof.
  assert (Hnd : NoDup (ledger Sample.connection)).
  { cbn. repeat constructor; cbn; intuition discriminate. }
  destruct (@backfill_any_cursor Sample.cfg Sample.connection Sample.Date_now
              (Some "sigTransfer"%string) 6 Sample.empty_state Hnd
              ltac:(cbn; lia)) as (visits & _ & _ & _ & Hnewest).
  apply (Hnewest ["sigSellApple"; "sigFresh"; "sigSellBanana"; "sigRejected"]%string
                 "sigTransfer"%string); reflexivity.
Defined.

(** ** The cursor at the end of a pass *)

Section PassFacts.

Variable cfg : Config.
Variable connection : Connection.
Variable Date_now : number.

Let handle := handleTx cfg connection Date_now.

Lemma trim_loop_subset (iter : list Signature) : forall s x,
  In x (trim_loop iter s) -> In x s.
Proof.
  induction iter as [|sig rest IH]; intros s x H; cbn [trim_loop] in H; [exact H|].
  destruct (seen_size s <=? 5000); [exact H|].
  apply IH in H. unfold seen_delete in H. apply filter_In in H. tauto.
Qed.

Lemma handleTx_seen_subset sig slot st x :
  In x (seen (state_of (handle sig slot st))) -> x = sig \/ In x (seen st).
Proof.
  unfold handle, handleTx.
  destruct (seen_has sig (seen st)); [auto|].
  destruct (getParsedTransaction connection sig) as [tx|];
    [|cbn; apply seen_add_iff].
  destruct (is_empty (pre_balances tx) || is_empty (post_balances tx));
    [cbn; apply seen_add_iff|].
  destruct (is_empty (swap_instructions cfg tx)); [cbn; apply seen_add_iff|].
  destruct (swap_loop _ _ _ _ _ _ _ _ _); cbn [state_of seen with_seen].
  - intros H. unfold trim_seen in H.
    destruct (seen_size _ >? 10000); [apply trim_loop_subset in H|];
      now apply seen_add_iff.
  - apply seen_add_iff.
Qed.

Lemma for_each_seen_subset (sigs : list Signature) : forall st st' x,
  for_each handle (map (info connection) sigs) st = Returned st' ->
  In x (seen st') -> In x sigs \/ In x (seen st).
Proof.
  induction sigs as [|s sigs IH]; intros st st' x H Hx; cbn [map for_each] in H.
  - injection H as <-. now right.
  - cbn [info sig_signature sig_slot] in H.
    destruct (handle s (Some (slotOf connection s)) st) as [st1|st1] eqn:E;
      [|discriminate].
    destruct (IH st1 st' x H Hx) as [Hin | Hin]; [left; now right|].
    pose proof (@handleTx_seen_subset s (Some (slotOf connection s)) st x) as Hsub.
    rewrite E in Hsub. destruct (Hsub Hin) as [-> | Hold]; [left; now left | now right].
Qed.

(** A pass that returns has left the cursor on the last signature it
    handled, when that one was new and its transaction reaches the loop. *)
Lemma for_each_cursor (vs : list Signature) (v : Signature) (st st' : State) :
  for_each handle (map (info connection) (vs ++ [v])) st = Returned st' ->
  ~ In v (seen st) -> ~ In v vs ->
  tx_reaches_loop cfg connection v = true ->
  lastSavedSignature st' = Some v.
Proof.
  intros H Hseen Hvs Hloop.
  rewrite map_app, for_each_app in H.
  destruct (for_each handle (map (info connection) vs) st) as [st1|st1] eqn:E1;
    [|discriminate].
  cbn [map for_each info sig_signature sig_slot] in H.
  destruct (handle v (Some (slotOf connection v)) st1) as [st2|st2] eqn:E2;
    [|discriminate].
  injection H as <-.
  destruct (handleTx_cursor cfg connection Date_now v (Some (slotOf connection v)) st1)
    as [_ Hcur].
  rewrite (Hcur st2 E2).
  assert (Hnew : seen_has v (seen st1) = false).
  { destruct (seen_has v (seen st1)) eqn:Es; [|reflexivity].
    apply seen_has_In in Es.
    destruct (@for_each_seen_subset vs st st1 v E1 Es); contradiction. }
  unfold enters_loop. unfold tx_reaches_loop in Hloop.
  rewrite Hnew. cbn [negb andb]. now rewrite Hloop.
Qed.

End PassFacts.

(** With more than one page, the signature handled last is not the
    newest one. *)
Lemma last_visit_not_newest (limit fuel : nat) (init vs : list Signature)
    (t v : Signature) :
  (0 < limit)%nat ->
  NoDup (init ++ [t]) ->
  (limit < List.length (init ++ [t]) < fuel)%nat ->
  flat_map (@rev Signature) (pages fuel limit (rev (init ++ [t]))) = vs ++ [v] ->
  v <> t.
Proof.
  intros Hpos Hnd [Hlong Hfuel] Hvisits.
  rewrite rev_unit in Hvisits.
  set (L := t :: rev init) in *.
  assert (HL : List.length L = List.length (init ++ [t])).
  { unfold L. cbn [List.length]. rewrite length_rev, length_app. cbn. lia. }
  assert (HndL : NoDup L).
  { unfold L. rewrite <- rev_unit. now apply NoDup_rev. }
  destruct fuel as [|fuel']; [lia|].
  change (pages (S fuel') limit L)
    with (firstn limit L :: pages fuel' limit (skipn limit L)) in Hvisits.
  cbn [flat_map] in Hvisits.
  set (rest := flat_map (@rev Signature) (pages fuel' limit (skipn limit L))) in *.
  assert (Hperm : Permutation rest (skipn limit L)).
  { apply pages_permutation; [exact Hpos|]. rewrite length_skipn. lia. }
  assert (Hrest : rest <> []).
  { intros E. rewrite E in Hperm. apply Permutation_length in Hperm.
    rewrite length_skipn, HL in Hperm. cbn [List.length] in Hperm. lia. }
  destruct (exists_last Hrest) as (r0 & w & Hw).
  rewrite Hw, app_assoc in Hvisits.
  apply app_inj_tail in Hvisits. destruct Hvisits as [_ <-].
  assert (Hin : In w (skipn limit L)).
  { eapply Permutation_in; [exact Hperm|]. rewrite Hw. apply in_or_app. right. now left. }
  rewrite <- (firstn_skipn limit L) in HndL.
  intros ->.
  assert (Hhead : In t (firstn limit L)).
  { unfold L. destruct limit; [lia|]. cbn. now left. }
  apply in_split in Hin. destruct Hin as (l1 & l2 & Hsplit).
  rewrite Hsplit in HndL. rewrite app_assoc in HndL.
  apply NoDup_remove_2 in HndL. apply HndL.
  apply in_or_app. left. apply in_or_app. now left.
Qed.

(** X16. The pass that [open] starts, from a state whose cursor [Tk] is in
    the ledger and in which no later signature has been seen: when it
    returns, and the transaction it handled last reaches the instruction
    loop, the cursor is that last signature. It is the newest signature
    of the ledger when at most 1000 follow [Tk]; with more than 1000 it
    is an older one, the newest of the oldest page. *)
Theorem cursor_after_pass (cfg : Config) (connection : Connection)
    (Date_now : number) (older init vs : list Signature) (Tk t v : Signature)
    (fuel : nat) (st st' : State) :
  ledger connection = older ++ Tk :: init ++ [t] ->
  NoDup (ledger connection) ->
  (List.length (init ++ [t]) < fuel)%nat ->
  lastSavedSignature st = Some Tk ->
  (forall x, In x (init ++ [t]) -> ~ In x (seen st)) ->
  on_open cfg connection Date_now fuel st = Some (Returned st') ->
  flat_map (@rev Signature) (pages fuel page_limit (rev (init ++ [t]))) = vs ++ [v] ->
  tx_reaches_loop cfg connection v = true ->
  lastSavedSignature st' = Some v /\
  ((List.length (init ++ [t]) <= page_limit)%nat -> v = t) /\
  ((page_limit < List.length (init ++ [t]))%nat -> v <> t).
Proof.
  intros Hledger Hnd Hfuel Hcur Hnew Hopen Hvisits Hloop.
  assert (Hpos : (0 < page_limit)%nat) by (unfold page_limit; lia).
  assert (Hwin : window (rev (ledger connection)) None (Some Tk) = rev (init ++ [t])).
  { rewrite Hledger. apply window_after_cursor. now rewrite <- Hledger. }
  assert (Hnd' : NoDup (init ++ [t])).
  { rewrite Hledger in Hnd. apply NoDup_app_remove_l in Hnd. now inversion Hnd. }
  assert (Hperm : Permutation (vs ++ [v]) (init ++ [t])).
  { rewrite <- Hvisits. etransitivity.
    - apply pages_permutation; [exact Hpos | now rewrite length_rev].
    - symmetry. apply Permutation_rev. }
  unfold on_open in Hopen. rewrite Hcur in Hopen. unfold backfill in Hopen.
  rewrite backfill_loop_calls in Hopen; try assumption.
  2:{ rewrite Hwin, length_rev. exact Hfuel. }
  rewrite Hwin, Hvisits in Hopen. injection Hopen as Hopen.
  split; [|split].
  - apply (@for_each_cursor cfg connection Date_now vs v st st' Hopen).
    + apply Hnew. eapply Permutation_in; [exact Hperm|].
      apply in_or_app. right. now left.
    + assert (Hndv : NoDup (vs ++ [v])).
      { apply (Permutation_NoDup (l := init ++ [t])); [now symmetry | exact Hnd']. }
      apply NoDup_remove_2 in Hndv. now rewrite app_nil_r in Hndv.
    + exact Hloop.
  - intros Hshort. destruct fuel as [|fuel']; [lia|].
    rewrite pages_single in Hvisits.
    + cbn [flat_map] in Hvisits. rewrite app_nil_r, rev_involutive in Hvisits.
      apply app_inj_tail in Hvisits. now destruct Hvisits.
    + intros E. apply (f_equal (@List.length _)) in E.
      rewrite length_rev, length_app in E. cbn in E. lia.
    + now rewrite length_rev.
  - intros Hlong.
    apply (@last_visit_not_newest page_limit fuel init vs t v Hpos Hnd'); [lia|exact Hvisits].
Qed.

(** The pass from the cursor ["sigShort"] over two later transactions. *)
Lemma cursor_after_pass_witness :
  exists st',
    on_open Sample.cfg Sample2.connection Sample.Date_now 3
            (mkState ["sigShort"%string] [] (Some "sigShort"%string) (Some []) 0)
      = Some (Returned st') /\
    lastSavedSignature st' = Some "sigRejected"%string.
Proof.
  assert (Hopen : exists st',
             on_open Sample.cfg Sample2.connection Sample.Date_now 3
               (mkState ["sigShort"%string] [] (Some "sigShort"%string) (Some []) 0)
             = Some (Returned st')).
  { vm_compute. eexists. reflexivity. }
  destruct Hopen as (st' & Hopen). exists st'. split; [exact Hopen|].
  apply (@cursor_after_pass Sample.cfg Sample2.connection Sample.Date_now
           ["sigSellApple"%string] ["sigTwice"%string] ["sigTwice"%string]
           "sigShort"%string "sigRejected"%string "sigRejected"%string 3
           (mkState ["sigShort"%string] [] (Some "sigShort"%string) (Some []) 0) st').
  - reflexivity.
  - cbn. repeat constructor; cbn; intuition discriminate.
  - cbn. lia.
  - reflexivity.
  - intros x [<- | [<- | []]] [H | []]; discriminate.
  - exact Hopen.
  - reflexivity.
  - reflexivity.
Defined.

(** ** The chart endpoint *)

Module ApiFacts.
Import Api.

Lemma slice_from_suffix {A : Type} (start : Z) (l : list A) :
  exists older, l = older ++ slice_from start l.
Proof. unfold slice_from. apply skipn_suffix. Qed.

Lemma slice_from_last {A : Type} (n : Z) (l : list A) :
  0 < n -> slice_from (- n) l = skipn (List.length l - Z.to_nat n) l.
Proof.
  intros Hn. unfold slice_from. cbv zeta. f_equal.
  destruct (Z.ltb_spec (- n) 0); lia.
Qed.

Lemma slice_from_zero {A : Type} (l : list A) : slice_from 0 l = l.
Proof.
  unfold slice_from. cbv zeta. cbn [Z.ltb Z.compare].
  replace (Z.to_nat (Z.min 0 (Z.of_nat (List.length l)))) with 0%nat by lia.
  reflexivity.
Qed.

Lemma after_first_spec (a : string) (candles : list SwapData) :
  (after_first a candles = None /\ ~ In a (map signature candles)) \/
  (exists pre c post,
     candles = pre ++ c :: post /\ signature c = a /\
     ~ In a (map signature pre) /\ after_first a candles = Some post).
Proof.
  induction candles as [|c rest IH]; cbn [after_first].
  - left. split; [reflexivity | intros []].
  - destruct (String.eqb_spec (signature c) a) as [Heq|Hne].
    + right. exists [], c, rest.
      split; [reflexivity|]. split; [exact Heq|]. split; [intros [] | reflexivity].
    + destruct IH as [[H1 H2] | (pre & c' & post & H1 & H2 & H3 & H4)].
      * left. split; [exact H1|]. cbn. tauto.
      * right. exists (c :: pre), c', post.
        split; [rewrite H1; reflexivity|]. split; [exact H2|].
        split; [cbn; tauto | exact H4].
Qed.

Lemma after_first_at (a : string) (pre post : list SwapData) (c : SwapData) :
  signature c = a -> ~ In a (map signature pre) ->
  after_first a (pre ++ c :: post) = Some post.
Proof.
  intros Hc. induction pre as [|p pre IH]; intros Hpre; cbn [after_first app].
  - now rewrite (proj2 (String.eqb_eq _ _) Hc).
  - destruct (String.eqb_spec (signature p) a) as [Heq|_].
    + exfalso. apply Hpre. cbn. now left.
    + apply IH. intros H. apply Hpre. cbn. now right.
Qed.

End ApiFacts.

(** X17. Without [after], the chart endpoint answers the last [count]
    entries of [chartData] in their order (all of them when there are
    fewer), 10 when [count] is absent. A [count] of 0, or one that is no
    number, answers the whole of [chartData], and a negative [count]
    [-k] answers all but the first [k] entries. *)
Theorem chart_count (chartData : list SwapData) :
  (forall n, 0 < n ->
     Api.chart (Api.CountNumber n) None chartData
       = skipn (List.length chartData - Z.to_nat n) chartData) /\
  Api.chart Api.CountAbsent None chartData
    = skipn (List.length chartData - 10) chartData /\
  Api.chart (Api.CountNumber 0) None chartData = chartData /\
  Api.chart Api.CountNaN None chartData = chartData /\
  (forall k, 0 < k ->
     Api.chart (Api.CountNumber (- k)) None chartData
       = skipn (Z.to_nat k) chartData).
Proof.
  unfold Api.chart. cbn [Api.effective_after Api.minus_count].
  split; [|split; [|split; [|split]]].
  - intros n Hn. apply ApiFacts.slice_from_last. lia.
  - change (- 10) with (- (10)). rewrite ApiFacts.slice_from_last by lia.
    reflexivity.
  - apply ApiFacts.slice_from_zero.
  - apply ApiFacts.slice_from_zero.
  - intros k Hk. rewrite Z.opp_involutive. unfold Api.slice_from.
    destruct (Z.ltb_spec k 0) as [|_]; [lia|].
    destruct (Z.le_gt_cases k (Z.of_nat (List.length chartData))) as [Hle|Hgt].
    + f_equal. lia.
    + rewrite !skipn_all2 by lia. reflexivity.
Qed.

Lemma chart_count_witness :
  Api.chart (Api.CountNumber 1) None [Sample2.row_apple; Sample2.row_twice]
    = [Sample2.row_twice] /\
  Api.chart (Api.CountNumber (- 1)) None [Sample2.row_apple; Sample2.row_twice]
    = [Sample2.row_twice].
Proof.
  destruct (chart_count [Sample2.row_apple; Sample2.row_twice])
    as (Hlast & _ & _ & _ & Hdrop).
  split.
  - exact (Hlast 1 ltac:(lia)).
  - exact (Hdrop 1 ltac:(lia)).
Defined.

(** X18. With [after], the endpoint looks for the signature among the
    entries selected by [count] only. If it is there, the answer is what
    follows its first occurrence; if it is not - unknown, or older than
    the selected entries - the answer is the selected entries, whole.
    The texts "null", "undefined" and the empty text count as no
    [after]. The answer is always an end piece of [chartData]. *)
Theorem chart_after (count : Api.count_param) (a : string)
    (chartData : list SwapData) :
  let selected := Api.chart count None chartData in
  (In a ["null"; "undefined"; ""]%string ->
     Api.chart count (Some a) chartData = selected) /\
  (~ In a ["null"; "undefined"; ""]%string ->
     (~ In a (map signature selected) ->
        Api.chart count (Some a) chartData = selected) /\
     (forall pre c post,
        selected = pre ++ c :: post -> signature c = a ->
        ~ In a (map signature pre) ->
        Api.chart count (Some a) chartData = post)) /\
  exists older, chartData = older ++ Api.chart count (Some a) chartData.
Proof.
  cbv zeta. unfold Api.chart. cbn [Api.effective_after].
  set (selected := Api.slice_from (Api.minus_count count) chartData).
  assert (Heff : (String.eqb a "null" || String.eqb a "undefined" || String.eqb a "" = true)
                 <-> In a ["null"; "undefined"; ""]%string).
  { rewrite !orb_true_iff, !String.eqb_eq. cbn [In]. intuition congruence. }
  destruct (String.eqb a "null" || String.eqb a "undefined" || String.eqb a "") eqn:E.
  - split; [reflexivity|]. split.
    + intros Hno. exfalso. apply Hno. now apply Heff.
    + apply ApiFacts.slice_from_suffix.
  - split; [intros H; apply Heff in H; discriminate|]. split.
    + intros _. split.
      * intros Hno.
        destruct (ApiFacts.after_first_spec a selected)
          as [[H _] | (pre & c & post & H1 & H2 & H3 & _)].
        -- now rewrite H.
        -- exfalso. apply Hno. rewrite H1, map_app. apply in_or_app. right.
           cbn. now left.
      * intros pre c post Hsel Hc Hpre.
        now rewrite Hsel, (@ApiFacts.after_first_at a pre post c Hc Hpre).
    + destruct (ApiFacts.slice_from_suffix (Api.minus_count count) chartData)
        as (older & Holder). fold selected in Holder.
      destruct (ApiFacts.after_first_spec a selected)
        as [[H _] | (pre & c & post & H1 & H2 & H3 & H4)].
      * rewrite H. now exists older.
      * rewrite H4. exists (older ++ pre ++ [c]).
        rewrite Holder at 1. rewrite H1, <- !app_assoc. reflexivity.
Qed.

(** Asking for what follows the sale of one Apple, among the last two
    entries and among the last one. *)
Lemma chart_after_witness :
  Api.chart (Api.CountNumber 2) (Some "sigSellApple"%string)
            [Sample2.row_apple; Sample2.row_twice] = [Sample2.row_twice] /\
  Api.chart (Api.CountNumber 1) (Some "sigSellApple"%string)
            [Sample2.row_twice; Sample2.row_apple; Sample2.row_twice]
    = [Sample2.row_twice].
Proof.
  split.
  - destruct (@chart_after (Api.CountNumber 2) "sigSellApple"%string
                [Sample2.row_apple; Sample2.row_twice]) as (_ & H & _).
    destruct H as [_ Hfound].
    + cbn. intuition discriminate.
    + apply (Hfound [] Sample2.row_apple [Sample2.row_twice]);
        [reflexivity | reflexivity | intros []].
  - destruct (@chart_after (Api.CountNumber 1) "sigSellApple"%string
                [Sample2.row_twice; Sample2.row_apple; Sample2.row_twice])
      as (_ & H & _).
    destruct H as [Habsent _].
    + cbn. intuition discriminate.
    + rewrite Habsent; [reflexivity|]. vm_compute. intros [H | []]. discriminate H.
Defined.
